(** * uav-geoloc: the image renaming tool [examples/rename_htmlimg.py]

    A shallow embedding of [parse_filename], [generate_new_filename] and
    [rename_images_in_folder], together with the parts of the Python
    run time they rest on: [os.path.splitext], [re.match] on the two
    patterns of the script, [float], [repr] and the [.6f] format of a
    float, [str.replace], [pathlib.Path] and a file system.

    Python strings are modelled as Rocq strings, that is sequences of
    code points below 256.  On that range the class [\d] of [re] is the
    ten ASCII digits. Paths follow the POSIX flavour of [os.path] and
    [pathlib]. *)

From Stdlib Require Import ZArith NArith Lia List Bool Ascii String.
From Stdlib Require Import Decimal DecimalString SpecFloat.
From stdpp Require Import base option gmap strings.

Import ListNotations.
Local Open Scope string_scope.
Local Open Scope Z_scope.

(* stdpp blocks the unfolding of [String.append]; the proofs below
   compute with it. *)
#[local] Arguments String.append !s1 s2.

(** ** Python strings *)

Module PyStr.

(** [len(s)] *)
Definition len (s : string) : Z := Z.of_nat (String.length s).

Fixpoint str_take (n : nat) (s : string) : string :=
  match n, s with
  | S n', String c s' => String c (str_take n' s')
  | _, _ => ""
  end.

Fixpoint str_drop (n : nat) (s : string) : string :=
  match n, s with
  | S n', String _ s' => str_drop n' s'
  | _, _ => s
  end.

(** [s[:i]] and [s[i:]] for an index [0 <= i]; the script never slices
    with a negative index. *)
Definition slice_to (s : string) (i : Z) : string := str_take (Z.to_nat i) s.
Definition slice_from (s : string) (i : Z) : string := str_drop (Z.to_nat i) s.

(** [s[i:i+1]]: the one-character string at [i], empty past the end. *)
Definition slice1 (s : string) (i : Z) : string := str_take 1 (slice_from s i).

(** [s.rfind(c)] for a one-character [c]: the highest index of [c],
    [-1] when there is none. *)
Fixpoint rfind (c : ascii) (s : string) : Z :=
  match s with
  | "" => -1
  | String a s' =>
      let r := rfind c s' in
      if 0 <=? r then r + 1
      else if Ascii.eqb a c then 0 else -1
  end.

(** [s.replace(old, new)] for a one-character [old]. *)
Fixpoint replace (old : ascii) (new : string) (s : string) : string :=
  match s with
  | "" => ""
  | String a s' =>
      if Ascii.eqb a old then new ++ replace old new s'
      else String a (replace old new s')
  end.

(** [c in s] for a one-character [c]. *)
Fixpoint contains (c : ascii) (s : string) : bool :=
  match s with
  | "" => false
  | String a s' => Ascii.eqb a c || contains c s'
  end.

(** the characters [\d] matches below code point 256: "0" to "9" *)
Definition is_digit (a : ascii) : bool :=
  (48 <=? nat_of_ascii a)%nat && (nat_of_ascii a <=? 57)%nat.

(** every character of [s] satisfies [p] *)
Fixpoint all (p : ascii -> bool) (s : string) : bool :=
  match s with
  | "" => true
  | String a s' => p a && all p s'
  end.

End PyStr.

(** ** Exceptions

    A computation that can raise returns [inl e]; [inr v] is a normal
    return. *)

Inductive exn :=
| ValueError (msg : string)
| OSError (msg : string).

Definition result (A : Type) : Type := exn + A.

Definition ret {A} (a : A) : result A := inr a.
Definition raise {A} (e : exn) : result A := inl e.

Definition bind {A B} (m : result A) (f : A -> result B) : result B :=
  match m with
  | inl e => inl e
  | inr a => f a
  end.

Notation "'let!' x ':=' m 'in' k" := (bind m (fun x => k))
  (at level 10, x name, m at level 100, k at level 200).

(** ** [float]: IEEE 754 binary64, on the specification floats of the
    Standard Library

    Python's floats are the values that are [valid_binary] for
    precision 53 and [emax] 1024. *)

Module PyFloat.
Import PyStr.

Definition float := spec_float.
Definition prec : Z := 53.
Definition emax : Z := 1024.

Fixpoint digits_value (acc : N) (s : string) : N :=
  match s with
  | "" => acc
  | String a s' => digits_value (10 * acc + (N_of_ascii a - 48))%N s'
  end.

(** the longest prefix of [s] whose characters satisfy [p], and the
    rest *)
Fixpoint span (p : ascii -> bool) (s : string) : string * string :=
  match s with
  | String a s' =>
      if p a then let '(u, v) := span p s' in (String a u, v) else ("", s)
  | "" => ("", "")
  end.

(** The double nearest to [n / 10^k], ties to even: [float] rounds a
    decimal literal correctly. *)
Definition of_decimal (neg : bool) (n : N) (k : nat) : float :=
  match n with
  | N0 => S754_zero neg
  | Npos p =>
      SFdiv prec emax (S754_finite neg p 0)
        (S754_finite false (Z.to_pos (10 ^ Z.of_nat k)) 0)
  end.

(** the leading sign of a literal, and the text after it *)
Definition split_sign (s : string) : bool * string :=
  match s with
  | String c r =>
      if Ascii.eqb c "-" then (true, r)
      else if Ascii.eqb c "+" then (false, r)
      else (false, s)
  | "" => (false, s)
  end.

(** the digits before and after the point of an unsigned literal *)
Definition split_point (s1 : string) : option (string * string) :=
  let '(ip, s2) := span is_digit s1 in
  let '(fp, s3) :=
    match s2 with
    | String c r => if Ascii.eqb c "." then span is_digit r else ("", s2)
    | "" => ("", s2)
    end in
  if (String.eqb ip "" && String.eqb fp "") || negb (String.eqb s3 "")
  then None
  else Some (ip, fp).

(** [float(s)] on a sign, digits, and a decimal point.  The other
    spellings Python accepts (an exponent, "inf", "nan", underscores,
    white space around the number) are answered with [ValueError]
    here, so this function raises at least as often as Python's. *)
Definition float_of_str (s : string) : result float :=
  let '(neg, s1) := split_sign s in
  match split_point s1 with
  | Some (ip, fp) =>
      ret (of_decimal neg (digits_value 0 (ip ++ fp)) (String.length fp))
  | None => raise (ValueError s)
  end.

(** decimal digits of a natural number, "0" for zero *)
Definition dec (n : N) : string := NilZero.string_of_uint (N.to_uint n).

Definition digit_char (d : Z) : ascii :=
  ascii_of_nat (48 + Z.to_nat (d mod 10)).

(** the last [w] decimal digits of [n], zero padded *)
Fixpoint digits_fixed (w : nat) (n : Z) : string :=
  match w with
  | O => ""
  | S w' => digits_fixed w' (n / 10) ++ String (digit_char n) ""
  end.

Fixpoint zeros (n : nat) : string :=
  match n with
  | O => ""
  | S n' => String "0" (zeros n')
  end.

(** [m * 2^e * 10^j] exactly: its floor, and how twice the remainder
    compares with the denominator *)
Definition scaled (m : positive) (e j : Z) : Z * comparison :=
  let num := Zpos m * 2 ^ Z.max 0 e * 10 ^ Z.max 0 j in
  let den := 2 ^ Z.max 0 (- e) * 10 ^ Z.max 0 (- j) in
  (num / den, (2 * (num mod den) ?= den)).

Definition round_half_even (qc : Z * comparison) : Z :=
  let '(q, c) := qc in
  match c with
  | Lt => q
  | Eq => if Z.even q then q else q + 1
  | Gt => q + 1
  end.

Definition sign_str (s : bool) : string := if s then "-" else "".

(** [f"{x:.6f}"]: the exact value of [x] rounded to six decimals, ties
    to even *)
Definition format_f6 (x : float) : string :=
  match x with
  | S754_nan => "nan"
  | S754_infinity s => sign_str s ++ "inf"
  | S754_zero s => sign_str s ++ "0.000000"
  | S754_finite s m e =>
      let n := round_half_even (scaled m e 6) in
      sign_str s ++ dec (Z.to_N (n / 1000000)) ++ "."
        ++ digits_fixed 6 (n mod 1000000)
  end.

(** the double nearest to [n * 10^(-j)] *)
Definition of_scaled (neg : bool) (n : Z) (j : Z) : float :=
  if 0 <=? j then of_decimal neg (Z.to_N n) (Z.to_nat j)
  else of_decimal neg (Z.to_N (n * 10 ^ (- j))) 0.

Definition same_value (x y : float) : bool :=
  match x, y with
  | S754_finite s1 m1 e1, S754_finite s2 m2 e2 =>
      Bool.eqb s1 s2 &&
      (Zpos m1 * 2 ^ (e1 - Z.min e1 e2) =? Zpos m2 * 2 ^ (e2 - Z.min e1 e2))
  | _, _ => false
  end.

(** The decimal point position [k] of [x = m * 2^e] is the least [k]
    with [x < 10^k].  The search starts below it, from the binary
    exponent. *)
Definition decpt_estimate (m : positive) (e : Z) : Z :=
  (Zpos (digits2_pos m) + e - 1) * 30103 / 100000 - 1.

Fixpoint find_decpt (fuel : nat) (m : positive) (e k : Z) : Z :=
  match fuel with
  | O => k
  | S fuel' =>
      if fst (scaled m e (- k)) =? 0 then k else find_decpt fuel' m e (k + 1)
  end.

(** [repr] prints the shortest digit string that [float] reads back as
    the same double, and the nearest to it among those: with [nd]
    digits the candidates are the two neighbours [lo] and [lo + 1] of
    [x * 10^j].  Seventeen digits always suffice. *)
Fixpoint shortest (fuel : nat) (m : positive) (e decpt : Z) (nd : Z) : Z * Z :=
  let j := nd - decpt in
  let '(lo, c) := scaled m e j in
  let x := S754_finite false m e in
  let ok_lo := same_value (of_scaled false lo j) x in
  let ok_hi := same_value (of_scaled false (lo + 1) j) x in
  let pick :=
    if ok_lo && ok_hi then Some (round_half_even (lo, c))
    else if ok_lo then Some lo
    else if ok_hi then Some (lo + 1)
    else None in
  match pick, fuel with
  | Some d, _ => (d, j)
  | None, O => (lo, j)
  | None, S fuel' => shortest fuel' m e decpt (nd + 1)
  end.

Fixpoint strip_zeros (fuel : nat) (d j : Z) : Z * Z :=
  match fuel with
  | O => (d, j)
  | S fuel' =>
      if (d mod 10 =? 0) && negb (d =? 0)
      then strip_zeros fuel' (d / 10) (j - 1)
      else (d, j)
  end.

(** The layout of [repr]: scientific notation when the decimal point
    position is at most -4 or above 16, with an exponent of two digits
    at least; otherwise positional, with ".0" after an integer. *)
Definition repr_finite (m : positive) (e : Z) : string :=
  let decpt0 := find_decpt 8 m e (decpt_estimate m e) in
  let '(d0, j0) := shortest 16 m e decpt0 1 in
  let '(d, j) := strip_zeros 20 d0 j0 in
  let ds := dec (Z.to_N d) in
  let nd := Z.of_nat (String.length ds) in
  let decpt := nd - j in
  if (decpt <=? -4) || (16 <? decpt) then
    let ex := decpt - 1 in
    let exs := dec (Z.to_N (Z.abs ex)) in
    match ds with
    | String c rest =>
        String c (match rest with "" => "" | _ => "." ++ rest end)
          ++ "e" ++ (if ex <? 0 then "-" else "+")
          ++ zeros (2 - String.length exs) ++ exs
    | "" => ""
    end
  else if decpt <=? 0 then "0." ++ zeros (Z.to_nat (- decpt)) ++ ds
  else if nd <=? decpt then ds ++ zeros (Z.to_nat (decpt - nd)) ++ ".0"
  else str_take (Z.to_nat decpt) ds ++ "." ++ str_drop (Z.to_nat decpt) ds.

(** [repr(x)], which is also [f"{x}"] and [str(x)] *)
Definition repr (x : float) : string :=
  match x with
  | S754_nan => "nan"
  | S754_infinity s => sign_str s ++ "inf"
  | S754_zero s => sign_str s ++ "0.0"
  | S754_finite s m e => sign_str s ++ repr_finite m e
  end.

Definition is_finite (x : float) : bool :=
  match x with
  | S754_zero _ | S754_finite _ _ _ => true
  | _ => false
  end.

End PyFloat.

(** ** [os.path.splitext] (posixpath: [sep = "/"], no [altsep],
    [extsep = "."]) *)

Module OsPath.
Import PyStr.

(** The loop of [genericpath._splitext] that skips the leading dots of
    the last component: [fuel] is [dotIndex - filenameIndex], the
    number of iterations the [while] can make. *)
Fixpoint skip_dots (fuel : nat) (p : string) (filenameIndex dotIndex : Z)
  : string * string :=
  match fuel with
  | O => (p, slice_to p 0)
  | S fuel' =>
      if negb (String.eqb (slice1 p filenameIndex) ".")
      then (slice_to p dotIndex, slice_from p dotIndex)
      else skip_dots fuel' p (filenameIndex + 1) dotIndex
  end.

Definition splitext (p : string) : string * string :=
  let sepIndex := rfind "/" p in
  let dotIndex := rfind "." p in
  if sepIndex <? dotIndex then
    let filenameIndex := sepIndex + 1 in
    skip_dots (Z.to_nat (dotIndex - filenameIndex)) p filenameIndex dotIndex
  else (p, slice_to p 0).

End OsPath.

(** ** [re.match] on the fragment of regular expressions the script uses

    Character classes are a literal, a negated literal ([[^c]]) and [\d];
    every quantifier is greedy and applies to one class; a capturing
    group holds a sequence of quantified classes; [^] and [$] are the
    anchors without the MULTILINE flag. *)

Module Re.
Import PyStr.

Inductive cls := Lit (c : ascii) | NotLit (c : ascii) | Digit.

Definition cls_match (k : cls) (a : ascii) : bool :=
  match k with
  | Lit c => Ascii.eqb a c
  | NotLit c => negb (Ascii.eqb a c)
  | Digit => is_digit a
  end.

Inductive quant := One | Opt | Star | Plus.

Inductive atom := Rep (k : cls) (q : quant).

Inductive node :=
| Bol                          (* ^ *)
| Eol                          (* $ *)
| At (a : atom)
| Grp (body : list atom).      (* ( ... ) *)

Definition regex := list node.

(** The matcher is the backtracking search of [sre]: a continuation
    receives the position reached and the text that remains; a greedy
    quantifier tries the longest repetition first and gives characters
    back one at a time while the continuation fails. *)
Section Matcher.
Context {R : Type}.

Fixpoint m_star (k : cls) (s : string) (n : nat)
    (cont : nat -> string -> option R) : option R :=
  match s with
  | String a s' =>
      if cls_match k a then
        match m_star k s' (S n) cont with
        | Some r => Some r
        | None => cont n s
        end
      else cont n s
  | "" => cont n s
  end.

Definition m_atom (a : atom) (s : string) (n : nat)
    (cont : nat -> string -> option R) : option R :=
  match a with
  | Rep k One =>
      match s with
      | String x s' => if cls_match k x then cont (S n) s' else None
      | "" => None
      end
  | Rep k Opt =>
      match s with
      | String x s' =>
          if cls_match k x then
            match cont (S n) s' with
            | Some r => Some r
            | None => cont n s
            end
          else cont n s
      | "" => cont n s
      end
  | Rep k Star => m_star k s n cont
  | Rep k Plus =>
      match s with
      | String x s' => if cls_match k x then m_star k s' (S n) cont else None
      | "" => None
      end
  end.

Fixpoint m_atoms (l : list atom) (s : string) (n : nat)
    (cont : nat -> string -> option R) : option R :=
  match l with
  | [] => cont n s
  | a :: l' => m_atom a s n (fun n' s' => m_atoms l' s' n' cont)
  end.
End Matcher.

(** [$] matches at the end of the text and just before a line feed
    that ends it. *)
Definition at_end (s : string) : bool :=
  match s with
  | "" => true
  | String a "" => Ascii.eqb a "010"
  | _ => false
  end.

(** Result: the end position of the match and the captured groups. *)
Fixpoint m_nodes (l : regex) (s : string) (n : nat) (caps : list string)
  : option (nat * list string) :=
  match l with
  | [] => Some (n, caps)
  | Bol :: l' => if (n =? 0)%nat then m_nodes l' s n caps else None
  | Eol :: l' => if at_end s then m_nodes l' s n caps else None
  | At a :: l' => m_atom a s n (fun n' s' => m_nodes l' s' n' caps)
  | Grp body :: l' =>
      m_atoms body s n
        (fun n' s' => m_nodes l' s' n' (caps ++ [str_take (n' - n) s])%list)
  end.

(** A match object is the list of its groups, group 0 (the whole
    match) first. *)
Definition match_obj := list string.

Definition re_match (r : regex) (s : string) : option match_obj :=
  match m_nodes r s 0 [] with
  | Some (n, caps) => Some (str_take n s :: caps)
  | None => None
  end.

(** [m.group(i)] *)
Definition group (m : match_obj) (i : nat) : string := nth i m "".

(** *** What a pattern denotes

    The texts a quantified class matches, and the texts a sequence of
    them matches. *)
Definition atom_lang (a : atom) (u : string) : Prop :=
  match a with
  | Rep k One => exists c, u = String c "" /\ cls_match k c = true
  | Rep k Opt => u = "" \/ exists c, u = String c "" /\ cls_match k c = true
  | Rep k Star => all (cls_match k) u = true
  | Rep k Plus => u <> "" /\ all (cls_match k) u = true
  end.

Fixpoint atoms_lang (l : list atom) (u : string) : Prop :=
  match l with
  | [] => u = ""
  | a :: l' =>
      exists u1 u2, u = u1 ++ u2 /\ atom_lang a u1 /\ atoms_lang l' u2
  end.

(** [nodes_sem l s n caps r]: the pattern [l] matches a prefix of [s],
    which starts at position [n], and the match ends at position
    [fst r] with the groups [snd r], [caps] being those captured
    before. *)
Fixpoint nodes_sem (l : regex) (s : string) (n : nat) (caps : list string)
    (r : nat * list string) : Prop :=
  match l with
  | [] => r = (n, caps)
  | Bol :: l' => n = 0%nat /\ nodes_sem l' s n caps r
  | Eol :: l' => at_end s = true /\ nodes_sem l' s n caps r
  | At a :: l' =>
      exists u v, s = u ++ v /\ atom_lang a u
                  /\ nodes_sem l' v (n + String.length u) caps r
  | Grp body :: l' =>
      exists u v, s = u ++ v /\ atoms_lang body u
                  /\ nodes_sem l' v (n + String.length u) (caps ++ [u])%list r
  end.

(** a literal text, one [At] per character *)
Fixpoint lit (s : string) : regex :=
  match s with
  | "" => []
  | String c s' => At (Rep (Lit c) One) :: lit s'
  end.

(** the group both patterns use for a coordinate, "-?\d+\.?\d*" *)
Definition number : list atom :=
  [Rep (Lit "-") Opt; Rep Digit Plus; Rep (Lit ".") Opt; Rep Digit Star].

End Re.

(** ** The script *)

Import PyStr.

(** The dictionary [parse_filename] returns, with its five keys. *)
Record info := Info {
  id : string;
  lat : PyFloat.float;
  lon : PyFloat.float;
  is_query : bool;
  ext : string
}.

(** [pattern1]: "^([^,]+),(N),(N)," where N stands for [Re.number] *)
Definition pattern1 : Re.regex :=
  ([Re.Bol; Re.Grp [Re.Rep (Re.NotLit ",") Re.Plus]] ++ Re.lit ","
   ++ [Re.Grp Re.number] ++ Re.lit "," ++ [Re.Grp Re.number]
   ++ Re.lit ",")%list.

(** [pattern2]: "^satellite_(N)_(N)$" where N stands for [Re.number] *)
Definition pattern2 : Re.regex :=
  ([Re.Bol] ++ Re.lit "satellite_" ++ [Re.Grp Re.number] ++ Re.lit "_"
   ++ [Re.Grp Re.number] ++ [Re.Eol])%list.

(** The coordinates the patterns accept: an optional "-", one or more
    digits, an optional ".", zero or more digits. *)
Definition is_number (u : string) : Prop :=
  exists sgn ip dot fp,
    u = sgn ++ ip ++ dot ++ fp
    /\ (sgn = "" \/ sgn = "-")
    /\ ip <> "" /\ all is_digit ip = true
    /\ (dot = "" \/ dot = ".")
    /\ all is_digit fp = true.

(** the characters a coordinate is made of *)
Definition number_char (c : ascii) : bool :=
  is_digit c || Ascii.eqb c "-" || Ascii.eqb c ".".

(** the characters [repr] and the [.6f] format write *)
Definition float_char (c : ascii) : bool :=
  is_digit c
  || existsb (Ascii.eqb c) ["."; "-"; "+"; "e"; "i"; "n"; "f"; "a"]%char.

(** the shape [pattern1] asks of a base name *)
Definition shape1 (s ident la lo rest : string) : Prop :=
  s = ident ++ "," ++ la ++ "," ++ lo ++ "," ++ rest
  /\ ident <> "" /\ contains "," ident = false
  /\ is_number la /\ is_number lo.

(** the shape [pattern2] asks of a base name; [tail] is what "$" lets
    follow the second coordinate *)
Definition shape2 (s la lo tail : string) : Prop :=
  s = "satellite_" ++ la ++ "_" ++ lo ++ tail
  /\ Re.at_end tail = true
  /\ is_number la /\ is_number lo.

(** A text with exactly six digits after the decimal point: an optional
    "-", one or more digits, ".", six digits. *)
Definition fixed6 (s : string) : Prop :=
  exists sgn ip fp,
    s = sgn ++ ip ++ "." ++ fp
    /\ (sgn = "" \/ sgn = "-")
    /\ ip <> "" /\ all is_digit ip = true
    /\ all is_digit fp = true /\ String.length fp = 6%nat.

(** [matches r s]: [re.match(r, s)] is a match object, not [None] *)
Definition matches (r : Re.regex) (s : string) : bool :=
  match Re.re_match r s with
  | Some _ => true
  | None => false
  end.

(** The first branch of [parse_filename], lines 17 to 32: [None] when
    [pattern1] does not match. *)
Definition parse_pattern1 (name_without_ext ext : string)
  : result (option info) :=
  match Re.re_match pattern1 name_without_ext with
  | Some match1 =>
      let image_id := Re.group match1 1 in
      let! lat := PyFloat.float_of_str (Re.group match1 2) in
      let! lon := PyFloat.float_of_str (Re.group match1 3) in
      ret (Some (Info image_id lat lon true ext))
  | None => ret None
  end.

(** The second branch, lines 34 to 50. *)
Definition parse_pattern2 (name_without_ext ext : string)
  : result (option info) :=
  match Re.re_match pattern2 name_without_ext with
  | Some match2 =>
      let! lat := PyFloat.float_of_str (Re.group match2 1) in
      let! lon := PyFloat.float_of_str (Re.group match2 2) in
      let image_id :=
        replace "-" "n"
          (replace "." "" (PyFloat.repr lat ++ "_" ++ PyFloat.repr lon)) in
      ret (Some (Info image_id lat lon false ext))
  | None => ret None
  end.

(** [r1] when it returned a record or raised, otherwise [r2] *)
Definition or_else (r1 r2 : result (option info)) : result (option info) :=
  match r1 with
  | inr None => r2
  | _ => r1
  end.

Definition parse_filename (filename : string) : result (option info) :=
  let name_without_ext := fst (OsPath.splitext filename) in
  let ext := snd (OsPath.splitext filename) in
  or_else (parse_pattern1 name_without_ext ext)
          (parse_pattern2 name_without_ext ext).

Definition generate_new_filename (i : info) (is_success : bool) : string :=
  let query_suffix := if is_query i then "_query" else "" in
  let status := if is_success then "success" else "failure" in
  let lat_str := PyFloat.format_f6 (lat i) in
  let lon_str := PyFloat.format_f6 (lon i) in
  "_" ++ id i ++ query_suffix ++ "@" ++ lat_str ++ "@" ++ lon_str ++ "@"
    ++ status ++ ext i.

(** [name] is laid out as the specification words the output format for
    the record [i] and the status [ok], with both coordinates in six
    decimals. *)
Definition well_formed_name (i : info) (ok : bool) (name : string) : Prop :=
  exists lat_s lon_s,
    fixed6 lat_s /\ fixed6 lon_s
    /\ name = "_" ++ id i ++ (if is_query i then "_query" else "") ++ "@"
              ++ lat_s ++ "@" ++ lon_s ++ "@"
              ++ (if ok then "success" else "failure") ++ ext i.

(** a name of 319 characters whose latitude, 10^309, is beyond the
    largest double *)
Definition huge_latitude_name : string :=
  "a,1" ++ PyFloat.zeros 309 ++ ",0,.jpg".

Definition huge_latitude_info : info :=
  Info "a" (S754_infinity false) (S754_zero false) true ".jpg".

(** ** [pathlib.Path]

    A path is the list of its parts, the root first. *)

Module PathLib.

Definition path := list string.

(** [p.name] *)
Definition name (p : path) : string := List.last p "".

(** [p.parent] *)
Definition parent (p : path) : path := List.removelast p.

(** [p / n] for a name [n] without a separator.  The script joins the
    generated file name, which holds a "/" only if the old name did,
    and the name of a directory entry never does. *)
Definition joinpath (p : path) (n : string) : path := (p ++ [n])%list.

(** [p.suffix] *)
Definition suffix (p : path) : string :=
  let name := name p in
  let i := rfind "." name in
  if (0 <? i) && (i <? len name - 1) then slice_from name i else "".

Fixpoint strip_prefix (other p : path) : option path :=
  match other, p with
  | [], _ => Some p
  | a :: other', b :: p' =>
      if String.eqb a b then strip_prefix other' p' else None
  | _ :: _, [] => None
  end.

(** [p.relative_to(other)] *)
Definition relative_to (p other : path) : result path :=
  match strip_prefix other p with
  | Some rel => ret rel
  | None => raise (ValueError "is not in the subpath")
  end.

End PathLib.

Import PathLib.

(** ** The file system and the console

    The script asks the file system four things.  [Path.exists] and
    [Path.is_file] answer [False] for a path that is not there and
    raise the [OSError] of every other failure of [stat], a name longer
    than a directory entry can be or a directory that may not be
    searched: [fs_exists] and [fs_is_file] return a truth value or
    raise.  [fs_rglob fs folder] is what [folder.rglob] yields for the
    pattern that matches every name: the entries, each as its directory
    relative to [folder] and its name, and the exception that ends the
    iteration when listing a directory raises.  [rglob] lists a
    directory when the walk enters it, the script renames only files and
    only inside the directory they are in, and the walk descends into a
    directory after all its entries were yielded: the entries it yields
    are those present when the loop starts.  [fs_rename] either returns
    the file system after the rename or raises.  Standard output is
    taken to accept every line. *)

Class FileSystem (FS : Type) := {
  fs_exists : FS -> path -> result bool;
  fs_is_file : FS -> path -> result bool;
  fs_rglob : FS -> path -> list (path * string) * option exn;
  fs_rename : FS -> path -> path -> result FS
}.

(** What [print] writes, one constructor per call of the script, with
    the values the line shows. *)
Inductive line :=
| LNoFolder (folder : path)
| LRule
| LScanning (folder : path)
| LMode (dry_run : bool)
| LBlank
| LSkipUnparsed (name : string)
| LSkipExists (name : string)
| LSubdir (rel : path)
| LOldName (name : string)
| LNewName (name : string)
| LCoords (lat lon : string)
| LKind (is_query : bool)
| LRenameOk
| LRenameFailed (e : exn)
| LPreviewOnly
| LDone
| LTotal (n : nat)
| LRenamed (dry_run : bool) (n : nat)
| LSkipped (n : nat)
| LHint.

(** The three counters of [rename_images_in_folder]. *)
Record stats := Stats {
  total_files : nat;
  renamed_files : nat;
  skipped_files : nat
}.

Definition image_extensions : gset string :=
  {[ ".jpg"; ".jpeg"; ".png"; ".JPG"; ".JPEG"; ".PNG" ]}.

Section TreeRenamer.
Context {FS : Type} `{FileSystem FS}.

(** the state the loop threads: the file system, standard output and
    the counters *)
Record state := State {
  st_fs : FS;
  st_out : list line;
  st_count : stats
}.

Definition print (l : list line) (st : state) : state :=
  State (st_fs st) (st_out st ++ l) (st_count st).

Definition count_total (st : state) : state :=
  let c := st_count st in
  State (st_fs st) (st_out st)
    (Stats (total_files c + 1) (renamed_files c) (skipped_files c)).

Definition count_renamed (st : state) : state :=
  let c := st_count st in
  State (st_fs st) (st_out st)
    (Stats (total_files c) (renamed_files c + 1) (skipped_files c)).

Definition count_skipped (st : state) : state :=
  let c := st_count st in
  State (st_fs st) (st_out st)
    (Stats (total_files c) (renamed_files c) (skipped_files c + 1)).

Definition set_fs (fs : FS) (st : state) : state :=
  State fs (st_out st) (st_count st).

(** *** Statements

    A statement runs on a state and leaves a state, together with the
    value it returned or the exception it raised.  The file system and
    the printed lines outlive an exception; the state an exception
    leaves is the state in which it was raised. *)
Definition action (A : Type) : Type := state -> state * result A.

Definition act_ret {A} (a : A) : action A := fun st => (st, ret a).

Definition act_bind {A B} (m : action A) (k : A -> action B) : action B :=
  fun st =>
    match m st with
    | (st', inr a) => k a st'
    | (st', inl e) => (st', inl e)
    end.

Notation "'let*' x ':=' m 'in' k" := (act_bind m (fun x => k))
  (at level 10, x name, m at level 100, k at level 200).

(** a computation that does not touch the state *)
Definition lift {A} (r : result A) : action A := fun st => (st, r).

(** a question to the file system *)
Definition ask {A} (f : FS -> result A) : action A :=
  fun st => (st, f (st_fs st)).

Definition modify (f : state -> state) : action unit :=
  fun st => (f st, ret tt).

(** [src.rename(dst)] *)
Definition rename (src dst : path) : action unit :=
  fun st =>
    match fs_rename (st_fs st) src dst with
    | inr fs' => (set_fs fs' st, ret tt)
    | inl e => (st, inl e)
    end.

(** [try: body  except Exception as e: handler]; both exceptions of
    the model are subclasses of [Exception] *)
Definition try_except (body : action unit) (handler : exn -> action unit)
  : action unit :=
  fun st =>
    match body st with
    | (st', inr _) => (st', ret tt)
    | (st', inl e) => handler e st'
    end.

(** [file_path.is_file() and file_path.suffix in image_extensions] *)
Definition eligible (fs : FS) (file_path : path) : result bool :=
  let! is_file := fs_is_file fs file_path in
  ret (is_file && bool_decide (suffix file_path ∈ image_extensions)).

Definition destination (file_path : path) (i : info)
    (default_status : string) : path :=
  joinpath (parent file_path)
    (generate_new_filename i (String.eqb default_status "success")).

(** [new_path.exists() and new_path != file_path] *)
Definition collides (fs : FS) (file_path new_path : path) : result bool :=
  let! found := fs_exists fs new_path in
  ret (found && bool_decide (new_path <> file_path)).

(** the test of line 100 returns and says yes *)
Definition is_image (fs : FS) (file_path : path) : bool :=
  match eligible fs file_path with
  | inr true => true
  | _ => false
  end.

(** [file_path] passes the three checks of the loop on the file system
    [fs]: it is an image file, its name is parsed, and its destination
    is free. *)
Definition would_rename (fs : FS) (default_status : string)
    (file_path : path) : bool :=
  is_image fs file_path
  && match parse_filename (name file_path) with
     | inr (Some i) =>
         match collides fs file_path
                 (destination file_path i default_status) with
         | inr false => true
         | _ => false
         end
     | _ => false
     end.

(** the five lines printed before a rename, lines 122 to 126 *)
Definition describe (rel : path) (file_path : path) (new_filename : string)
    (i : info) : list line :=
  [LSubdir rel; LOldName (name file_path); LNewName new_filename;
   LCoords (PyFloat.repr (lat i)) (PyFloat.repr (lon i));
   LKind (is_query i)].

(** One iteration of the [for] loop, lines 100 to 139.  Only the
    rename stands inside the [try]: what the tests of lines 100 and 116
    raise leaves the loop. *)
Definition loop_body (folder : path) (dry_run : bool)
    (default_status : string) (file_path : path) : action unit :=
  let* image := ask (fun fs => eligible fs file_path) in
  if image then
    let* _ := modify count_total in
    let* parsed := lift (parse_filename (name file_path)) in
    match parsed with
    | None =>
        let* _ := modify (print [LSkipUnparsed (name file_path)]) in
        modify count_skipped
    | Some i =>
        let new_filename :=
          generate_new_filename i (String.eqb default_status "success") in
        let new_path := joinpath (parent file_path) new_filename in
        let* taken := ask (fun fs => collides fs file_path new_path) in
        if taken then
          let* _ := modify (print [LSkipExists (name file_path)]) in
          modify count_skipped
        else
          let* rel := lift (relative_to (parent file_path) folder) in
          let* _ := modify (print (describe rel file_path new_filename i)) in
          if negb dry_run then
            try_except
              (let* _ := rename file_path new_path in
               let* _ := modify (print [LRenameOk; LBlank]) in
               modify count_renamed)
              (fun e =>
                 let* _ := modify (print [LRenameFailed e; LBlank]) in
                 modify count_skipped)
          else
            let* _ := modify (print [LPreviewOnly; LBlank]) in
            modify count_renamed
    end
  else act_ret tt.

(** The six ways an iteration ends without an exception, for the file
    [folder / rel / entry_name]: [step ... st st'] relates the state
    before to the state after. *)
Inductive step (folder : path) (dry_run : bool) (default_status : string)
    (rel : path) (entry_name : string) (st : state) : state -> Prop :=
| step_ignored :
    eligible (st_fs st) (joinpath (folder ++ rel)%list entry_name)
      = ret false ->
    step folder dry_run default_status rel entry_name st st
| step_unparsed :
    eligible (st_fs st) (joinpath (folder ++ rel)%list entry_name)
      = ret true ->
    parse_filename entry_name = ret None ->
    step folder dry_run default_status rel entry_name st
      (count_skipped (print [LSkipUnparsed entry_name] (count_total st)))
| step_collision (i : info) :
    let file_path := joinpath (folder ++ rel)%list entry_name in
    eligible (st_fs st) file_path = ret true ->
    parse_filename entry_name = ret (Some i) ->
    collides (st_fs st) file_path
      (destination file_path i default_status) = ret true ->
    step folder dry_run default_status rel entry_name st
      (count_skipped (print [LSkipExists entry_name] (count_total st)))
| step_preview (i : info) :
    let file_path := joinpath (folder ++ rel)%list entry_name in
    let new_filename :=
      generate_new_filename i (String.eqb default_status "success") in
    eligible (st_fs st) file_path = ret true ->
    parse_filename entry_name = ret (Some i) ->
    collides (st_fs st) file_path
      (destination file_path i default_status) = ret false ->
    dry_run = true ->
    step folder dry_run default_status rel entry_name st
      (count_renamed
         (print [LPreviewOnly; LBlank]
            (print (describe rel file_path new_filename i)
               (count_total st))))
| step_renamed (i : info) (fs' : FS) :
    let file_path := joinpath (folder ++ rel)%list entry_name in
    let new_filename :=
      generate_new_filename i (String.eqb default_status "success") in
    eligible (st_fs st) file_path = ret true ->
    parse_filename entry_name = ret (Some i) ->
    collides (st_fs st) file_path
      (destination file_path i default_status) = ret false ->
    dry_run = false ->
    fs_rename (st_fs st) file_path
      (destination file_path i default_status) = inr fs' ->
    step folder dry_run default_status rel entry_name st
      (count_renamed
         (print [LRenameOk; LBlank]
            (set_fs fs'
               (print (describe rel file_path new_filename i)
                  (count_total st)))))
| step_failed (i : info) (e : exn) :
    let file_path := joinpath (folder ++ rel)%list entry_name in
    let new_filename :=
      generate_new_filename i (String.eqb default_status "success") in
    eligible (st_fs st) file_path = ret true ->
    parse_filename entry_name = ret (Some i) ->
    collides (st_fs st) file_path
      (destination file_path i default_status) = ret false ->
    dry_run = false ->
    fs_rename (st_fs st) file_path
      (destination file_path i default_status) = inl e ->
    step folder dry_run default_status rel entry_name st
      (count_skipped
         (print [LRenameFailed e; LBlank]
            (print (describe rel file_path new_filename i)
               (count_total st)))).

(** The two ways an iteration raises, for the file
    [folder / rel / entry_name]: the file test of line 100 raises, or
    the existence test of line 116 does, after the file was counted.
    [abort ... st st' e] relates the state before to the state the
    exception [e] leaves. *)
Inductive abort (folder : path) (default_status : string)
    (rel : path) (entry_name : string) (st : state)
  : state -> exn -> Prop :=
| abort_is_file (e : exn) :
    eligible (st_fs st) (joinpath (folder ++ rel)%list entry_name)
      = inl e ->
    abort folder default_status rel entry_name st st e
| abort_exists (i : info) (e : exn) :
    let file_path := joinpath (folder ++ rel)%list entry_name in
    eligible (st_fs st) file_path = ret true ->
    parse_filename entry_name = ret (Some i) ->
    collides (st_fs st) file_path
      (destination file_path i default_status) = inl e ->
    abort folder default_status rel entry_name st (count_total st) e.


(** [folder / rel / name] *)
Definition entry_path (folder : path) (e : path * string) : path :=
  joinpath (folder ++ fst e)%list (snd e).

(** the [for] loop over the entries *)
Fixpoint scan (folder : path) (dry_run : bool) (default_status : string)
    (entries : list (path * string)) : action unit :=
  match entries with
  | [] => act_ret tt
  | e :: rest =>
      let* _ :=
        loop_body folder dry_run default_status (entry_path folder e) in
      scan folder dry_run default_status rest
  end.


(** the lines printed before the loop, lines 93 to 96 *)
Definition header (folder : path) (dry_run : bool) : list line :=
  [LRule; LScanning folder; LMode dry_run; LRule; LBlank].

(** the lines printed after the loop, lines 142 to 150 *)
Definition summary (dry_run : bool) (c : stats) : list line :=
  ([LRule; LDone; LTotal (total_files c);
    LRenamed dry_run (renamed_files c); LSkipped (skipped_files c); LRule]
   ++ (if dry_run && (0 <? renamed_files c)%nat then [LBlank; LHint] else []))%list.

(** the end of the iteration of [rglob]: it stops, or raises *)
Definition end_of_listing (ending : option exn) : action unit :=
  match ending with
  | Some e => lift (raise e)
  | None => act_ret tt
  end.

(** [rename_images_in_folder(folder_path, dry_run, default_status)]
    started on the file system [fs] with [out] already printed;
    [folder] is [Path(folder_path)].  The counters are local
    variables, zero at the start; the function returns nothing, so the
    model gives the file system, the output and the counters it ends
    with, and whether it returned or raised. *)
Definition rename_images_in_folder (folder : path) (dry_run : bool)
    (default_status : string) (fs : FS) (out : list line)
  : state * result unit :=
  (let* found := ask (fun fs => fs_exists fs folder) in
   if negb found then modify (print [LNoFolder folder])
   else
     let* _ := modify (print (header folder dry_run)) in
     let* _ :=
       scan folder dry_run default_status (fst (fs_rglob fs folder)) in
     let* _ := end_of_listing (snd (fs_rglob fs folder)) in
     modify (fun st => print (summary dry_run (st_count st)) st))
    (State fs out (Stats 0 0 0)).

End TreeRenamer.

Arguments state FS : clear implicits.
Arguments action FS A : clear implicits.

(** What the script relies on when it renames a file: after
    [os.rename(src, dst)] returned, [dst] exists, and the paths other
    than [src] and [dst] exist as before. *)
Class FileSystemLaws (FS : Type) `{FileSystem FS} : Prop := {
  rename_creates : forall (fs fs' : FS) (src dst : path),
    fs_is_file fs src = ret true -> fs_rename fs src dst = inr fs' ->
    fs_exists fs' dst = ret true;
  rename_frame : forall (fs fs' : FS) (src dst p : path),
    fs_is_file fs src = ret true -> fs_rename fs src dst = inr fs' ->
    p <> src -> p <> dst -> fs_exists fs' p = fs_exists fs p
}.

(** ** A file system in memory

    Used to run the script on concrete directory trees.  A file system
    is a finite map from paths to the kind of entry there, and a set of
    directories in which a rename is refused.  A path with a part of
    more than 255 characters cannot be looked up: [stat] and [rename]
    raise on it, as they do on Linux.  [rename] moves files only; like
    [os.rename] on POSIX it replaces a file at the destination. *)

Module MemFS.

Inductive kind := KFile | KDir.

Record t := Make {
  nodes : gmap path kind;
  locked : gset path
}.

Definition name_max : nat := 255.

Definition too_long (p : path) : bool :=
  existsb (fun n => (name_max <? String.length n)%nat) p.

(** [os.stat] as [Path.exists] and [Path.is_file] use it: nothing for
    a path that is not there *)
Definition stat (fs : t) (p : path) : result (option kind) :=
  if too_long p then raise (OSError "File name too long")
  else ret (nodes fs !! p).

Definition exists_ (fs : t) (p : path) : result bool :=
  let! found := stat fs p in
  ret (match found with
       | Some _ => true
       | None => false
       end).

Definition is_file (fs : t) (p : path) : result bool :=
  let! found := stat fs p in
  ret (match found with
       | Some KFile => true
       | _ => false
       end).

Definition entry_of (folder : path) (p : path) : option (path * string) :=
  match strip_prefix folder p with
  | Some (a :: rel) => Some (List.removelast (a :: rel), List.last (a :: rel) "")
  | _ => None
  end.

Definition rglob (fs : t) (folder : path)
  : list (path * string) * option exn :=
  (omap (fun pk => entry_of folder (fst pk)) (map_to_list (nodes fs)), None).

Definition rename (fs : t) (src dst : path) : result t :=
  if too_long src || too_long dst then raise (OSError "File name too long")
  else
    match nodes fs !! src with
    | Some KFile =>
        if bool_decide (parent src ∈ locked fs)
        then raise (OSError "Permission denied")
        else
          match nodes fs !! dst with
          | Some KDir => raise (OSError "Is a directory")
          | _ => ret (Make (<[dst := KFile]> (delete src (nodes fs))) (locked fs))
          end
    | Some KDir => raise (OSError "Operation not supported")
    | None => raise (OSError "No such file or directory")
    end.

#[global] Instance file_system : FileSystem t :=
  {| fs_exists := exists_; fs_is_file := is_file;
     fs_rglob := rglob; fs_rename := rename |}.

(** a tree from the list of its directories and files *)
Definition of_lists (dirs files : list path) (locked : list path) : t :=
  Make (list_to_map (map (fun p => (p, KDir)) dirs
                     ++ map (fun p => (p, KFile)) files)%list)
       (list_to_set locked).

End MemFS.

Definition demo : MemFS.t :=
  MemFS.of_lists [["demo-img"]; ["demo-img"; "q"]]
    [["demo-img"; "q"; "abc123,37.788169,-122.400728,.jpg"];
     ["demo-img"; "q"; "abc123,37.788169,-122.400728,x.jpg"];
     ["demo-img"; "satellite_37.78816344751675_-122.40075733242969.png"];
     ["demo-img"; "photo001.jpg"];
     ["demo-img"; "notes.txt"]] [].


(** two query images of one place, in one directory *)
Definition twins : MemFS.t :=
  MemFS.of_lists [["demo-img"]]
    [["demo-img"; "abc123,37.788169,-122.400728,a.jpg"];
     ["demo-img"; "abc123,37.788169,-122.400728,b.jpg"]] [].

(** the same tree, with renames refused in its directory *)
Definition twins_locked : MemFS.t :=
  MemFS.of_lists [["demo-img"]]
    [["demo-img"; "abc123,37.788169,-122.400728,a.jpg"];
     ["demo-img"; "abc123,37.788169,-122.400728,b.jpg"]] [["demo-img"]].

(** the record both names of [twins] are parsed to *)
Definition twin_info : info :=
  Info "abc123" (S754_finite false 5318211994606667 (-47))
    (S754_finite true 8613185515791835 (-46)) true ".jpg".

(** a query image whose name has 239 characters; the name generated
    for it has 267, more than a directory entry can have *)
Definition long_name : string := PyFloat.zeros 230 ++ ",1,2,.jpg".

Definition long_names : MemFS.t :=
  MemFS.of_lists [["demo-img"]] [["demo-img"; long_name]] [].

(** the lines that report a skipped file, and those that report a file
    renamed or previewed *)
Definition is_skip_line (l : line) : bool :=
  match l with
  | LSkipUnparsed _ | LSkipExists _ | LRenameFailed _ => true
  | _ => false
  end.

Definition is_done_line (l : line) : bool :=
  match l with
  | LRenameOk | LPreviewOnly => true
  | _ => false
  end.

(** since [out] was printed, the state [st] has as many more skip lines
    as its skipped counter says and as many more rename lines as its
    renamed counter says *)
Definition reported {FS : Type} (st : state FS) (out : list line) : Prop :=
  length (List.filter is_skip_line (st_out st))
  = (length (List.filter is_skip_line out) + skipped_files (st_count st))%nat
  /\ length (List.filter is_done_line (st_out st))
     = (length (List.filter is_done_line out)
        + renamed_files (st_count st))%nat.

(** ** The script run as a program, lines 153 to 167

    What the program prints: its own lines, and those of
    [rename_images_in_folder]. *)
Inductive main_line :=
| MExecuteMode                  (* the banner of execute mode *)
| MPreviewMode                  (* the banner of preview mode *)
| MBlank
| MRule
| MHowToRun                     (* how to run the script in execute mode *)
| MFrom (l : line).

(** [argv] is [sys.argv], the name of the script first.  The folder and
    the status are the constants of the script.  The program leaves a
    file system and the lines it printed, and returns or raises; the
    last three lines of preview mode are printed when the function
    returned. *)
Definition main {FS : Type} `{FileSystem FS} (argv : list string) (fs : FS)
  : (FS * list main_line) * result unit :=
  if (1 <? length argv)%nat && String.eqb (nth 1 argv "") "run" then
    let (st, r) := rename_images_in_folder ["demo-img"] false "success" fs [] in
    ((st_fs st, ([MExecuteMode; MBlank] ++ map MFrom (st_out st))%list), r)
  else
    let (st, r) := rename_images_in_folder ["demo-img"] true "success" fs [] in
    ((st_fs st,
      ([MPreviewMode; MBlank] ++ map MFrom (st_out st)
       ++ match r with
          | inr _ => [MBlank; MRule; MHowToRun; MRule]
          | inl _ => []
          end)%list), r).

(** what a run shows: the lines printed, the counters, and how it
    ended *)
Definition report {FS : Type} (r : state FS * result unit)
  : list line * stats * result unit :=
  (st_out (fst r), st_count (fst r), snd r).

(** the state of the loop on [twins] in execute mode after its first
    entry, the file named b *)
Definition twins_after_first : state MemFS.t :=
  fst (loop_body ["demo-img"] false "success"
         ["demo-img"; "abc123,37.788169,-122.400728,b.jpg"]
         (State twins [] (Stats 0 0 0))).

(** the states execute mode ends in on [twins] and [twins_locked] *)
Definition twins_final : state MemFS.t :=
  fst (rename_images_in_folder ["demo-img"] false "success" twins []).

Definition twins_locked_final : state MemFS.t :=
  fst (rename_images_in_folder ["demo-img"] false "success" twins_locked []).

(** the state preview mode ends in on [twins] *)
Definition twins_previewed : state MemFS.t :=
  fst (rename_images_in_folder ["demo-img"] true "success" twins []).

(** the state the loop ends in on [twins] after its first entry *)
Definition twins_after_both : state MemFS.t :=
  fst (scan ["demo-img"] false "success"
         [([], "abc123,37.788169,-122.400728,a.jpg")] twins_after_first).

(** * Properties *)

(** ** Strings *)

Module PyStrFacts.

Lemma app_nil_r (s : string) : s ++ "" = s.
Proof. induction s as [|c s IH]; simpl; [reflexivity | now rewrite IH]. Qed.

Lemma app_assoc (a b c : string) : (a ++ b) ++ c = a ++ (b ++ c).
Proof. induction a as [|x a IH]; simpl; [reflexivity | now rewrite IH]. Qed.

Lemma length_app (a b : string) :
  String.length (a ++ b) = (String.length a + String.length b)%nat.
Proof. induction a as [|x a IH]; simpl; [reflexivity | now rewrite IH]. Qed.

Lemma take_app (a b : string) : str_take (String.length a) (a ++ b) = a.
Proof. induction a as [|x a IH]; simpl; [now destruct b | now rewrite IH]. Qed.

Lemma drop_app (a b : string) : str_drop (String.length a) (a ++ b) = b.
Proof. induction a as [|x a IH]; simpl; [now destruct b | exact IH]. Qed.

Lemma take_drop (n : nat) (s : string) : str_take n s ++ str_drop n s = s.
Proof.
  revert s; induction n as [|n IH]; intros [|c s]; simpl; try reflexivity.
  now rewrite IH.
Qed.

Lemma take_length (s : string) : str_take (String.length s) s = s.
Proof. induction s as [|c s IH]; simpl; [reflexivity | now rewrite IH]. Qed.

Lemma all_app p (a b : string) : all p (a ++ b) = all p a && all p b.
Proof.
  induction a as [|x a IH]; simpl; [reflexivity|].
  now rewrite IH, andb_assoc.
Qed.

Lemma all_impl (p q : ascii -> bool) (s : string) :
  (forall c, p c = true -> q c = true) -> all p s = true -> all q s = true.
Proof.
  intros Hpq; induction s as [|c s IH]; simpl; [reflexivity|].
  rewrite !andb_true_iff; intros [Hc Hs]; auto.
Qed.

Lemma all_take p (n : nat) (s : string) :
  all p s = true -> all p (str_take n s) = true.
Proof.
  revert s; induction n as [|n IH]; intros [|c s]; simpl; try reflexivity.
  rewrite !andb_true_iff; intros [Hc Hs]; auto.
Qed.

Lemma all_drop p (n : nat) (s : string) :
  all p s = true -> all p (str_drop n s) = true.
Proof.
  revert s; induction n as [|n IH]; intros [|c s]; simpl; auto.
  rewrite !andb_true_iff; intros [Hc Hs]; auto.
Qed.

Lemma contains_app c (a b : string) :
  contains c (a ++ b) = contains c a || contains c b.
Proof.
  induction a as [|x a IH]; simpl; [reflexivity|].
  now rewrite IH, orb_assoc.
Qed.

(** [c] does not occur in [s] exactly when every character differs
    from it *)
Lemma contains_false_all c (s : string) :
  contains c s = false <-> all (fun a => negb (Ascii.eqb a c)) s = true.
Proof.
  induction s as [|x s IH]; simpl; [tauto|].
  rewrite orb_false_iff, andb_true_iff, negb_true_iff, IH. tauto.
Qed.

Lemma all_not_contains p c (s : string) :
  p c = false -> all p s = true -> contains c s = false.
Proof.
  intros Hc; induction s as [|x s IH]; simpl; [reflexivity|].
  rewrite andb_true_iff; intros [Hx Hs].
  rewrite (IH Hs), orb_false_r.
  destruct (Ascii.eqb_spec x c) as [->|]; [congruence | reflexivity].
Qed.

Lemma contains_take c (n : nat) (s : string) :
  contains c s = false -> contains c (str_take n s) = false.
Proof. rewrite !contains_false_all. apply all_take. Qed.

(** A text is cut at the first occurrence of [c] in one way only. *)
Lemma split_first_unique c (a a' x x' : string) :
  contains c a = false -> contains c a' = false ->
  a ++ String c x = a' ++ String c x' -> a = a' /\ x = x'.
Proof.
  revert a'; induction a as [|y a IH]; intros [|y' a']; simpl.
  - intros _ _ [= ->]. auto.
  - rewrite orb_false_iff. intros _ [Hy _] [= <- _].
    now rewrite Ascii.eqb_refl in Hy.
  - rewrite orb_false_iff. intros [Hy _] _ [= -> _].
    now rewrite Ascii.eqb_refl in Hy.
  - rewrite !orb_false_iff. intros [_ Ha] [_ Ha'] [= -> Heq].
    destruct (IH _ Ha Ha' Heq) as [-> ->]. auto.
Qed.

Lemma replace_all p old new (s : string) :
  all p new = true -> all p s = true -> all p (replace old new s) = true.
Proof.
  intros Hn; induction s as [|x s IH]; simpl; [reflexivity|].
  rewrite andb_true_iff; intros [Hx Hs].
  destruct (Ascii.eqb x old); simpl.
  - rewrite all_app, Hn; auto.
  - rewrite Hx; auto.
Qed.

(** after [replace old new] the character [old] is gone, unless [new]
    brings it back *)
Lemma replace_removes old new (s : string) :
  contains old new = false -> contains old (replace old new s) = false.
Proof.
  intros Hn; induction s as [|x s IH]; simpl; [reflexivity|].
  destruct (Ascii.eqb x old) eqn:E; simpl.
  - now rewrite contains_app, Hn, IH.
  - now rewrite E, IH.
Qed.

(** a character that is neither [old] nor in [new] stays out *)
Lemma replace_keeps_out c old new (s : string) :
  contains c new = false -> contains c s = false ->
  contains c (replace old new s) = false.
Proof.
  rewrite !contains_false_all. apply replace_all.
Qed.

(** *** [rfind] *)

Lemma rfind_range c (s : string) : -1 <= rfind c s < len s.
Proof.
  unfold len; induction s as [|x s IH]; simpl String.length; simpl rfind.
  - lia.
  - destruct (0 <=? rfind c s) eqn:E.
    + apply Z.leb_le in E. lia.
    + destruct (Ascii.eqb x c); lia.
Qed.

Lemma rfind_none c (s : string) :
  rfind c s = -1 <-> contains c s = false.
Proof.
  induction s as [|x s IH]; simpl; [tauto|].
  pose proof (rfind_range c s) as R.
  destruct (0 <=? rfind c s) eqn:E.
  - apply Z.leb_le in E. split; [lia|].
    rewrite orb_false_iff. intros [_ Hs]. apply IH in Hs. lia.
  - apply Z.leb_gt in E. assert (rfind c s = -1) as Hr by lia.
    apply IH in Hr. rewrite Hr, orb_false_r.
    destruct (Ascii.eqb x c); split; intros; (lia || congruence).
Qed.

Lemma rfind_app c (a b : string) :
  rfind c (a ++ b) =
  if 0 <=? rfind c b then len a + rfind c b else rfind c a.
Proof.
  unfold len; induction a as [|x a IH]; simpl String.length; simpl rfind.
  - destruct (0 <=? rfind c b) eqn:E; [lia|].
    apply Z.leb_gt in E. pose proof (rfind_range c b). lia.
  - simpl. rewrite IH. destruct (0 <=? rfind c b) eqn:E.
    + apply Z.leb_le in E.
      replace (0 <=? Z.of_nat (String.length a) + rfind c b) with true
        by (symmetry; apply Z.leb_le; lia).
      lia.
    + reflexivity.
Qed.

(** at the index [rfind] returns stands the last [c] of the text *)
Lemma rfind_drop c (s : string) :
  0 <= rfind c s ->
  exists r, str_drop (Z.to_nat (rfind c s)) s = String c r
            /\ contains c r = false.
Proof.
  induction s as [|x s IH]; simpl rfind; [lia|].
  destruct (0 <=? rfind c s) eqn:E.
  - apply Z.leb_le in E. intros _. destruct (IH E) as (r & Hr & Hc).
    exists r. split; [|exact Hc].
    replace (Z.to_nat (rfind c s + 1)) with (S (Z.to_nat (rfind c s))) by lia.
    exact Hr.
  - apply Z.leb_gt in E. pose proof (rfind_range c s) as R.
    assert (rfind c s = -1) as Hn by lia. apply rfind_none in Hn.
    destruct (Ascii.eqb_spec x c) as [->|]; [|lia].
    intros _. exists s. simpl. auto.
Qed.

(** no [c] stands after the index [rfind] returns *)
Lemma contains_drop_rfind c (s : string) (i : nat) :
  rfind c s < Z.of_nat i -> contains c (str_drop i s) = false.
Proof.
  revert i; induction s as [|x s IH]; intros i.
  - now destruct i.
  - destruct i as [|i].
    + intros Hlt. simpl str_drop. apply rfind_none.
      pose proof (rfind_range c (String x s)). lia.
    + pose proof (rfind_range c s) as R. simpl.
      destruct (0 <=? rfind c s) eqn:E.
      * intros Hlt. apply IH. lia.
      * apply Z.leb_gt in E. intros _. apply IH. lia.
Qed.

End PyStrFacts.

(** ** [splitext] *)

Module OsPathFacts.
Import PyStrFacts OsPath.

Lemma drop_S (n : nat) (p : string) x r :
  str_drop n p = String x r -> str_drop (S n) p = r.
Proof.
  revert p; induction n as [|n IH]; intros [|y p]; simpl; try discriminate.
  - now intros [= _ ->].
  - apply IH.
Qed.

Lemma skip_dots_cases fuel p i d :
  skip_dots fuel p i d = (p, "")
  \/ skip_dots fuel p i d = (slice_to p d, slice_from p d).
Proof.
  revert i; induction fuel as [|fuel IH]; intros i; simpl.
  - now left.
  - destruct (negb _); [now right | apply IH].
Qed.

(** the loop stops at the first character that is not a dot *)
Lemma skip_dots_found fuel p i j d :
  i <= j -> j - i < Z.of_nat fuel -> slice1 p j <> "." ->
  skip_dots fuel p i d = (slice_to p d, slice_from p d).
Proof.
  revert i; induction fuel as [|fuel IH]; intros i Hij Hf Hj; simpl.
  - lia.
  - destruct (String.eqb_spec (slice1 p i) ".") as [E|E]; simpl.
    + assert (i <> j) by (intros ->; contradiction).
      apply IH; [lia | lia | assumption].
    + reflexivity.
Qed.

(** The base name [splitext] returns is a prefix of the path. *)
Lemma splitext_prefix (p : string) :
  exists k, fst (splitext p) = str_take k p.
Proof.
  unfold splitext.
  destruct (rfind "/" p <? rfind "." p).
  - destruct (skip_dots_cases
                (Z.to_nat (rfind "." p - (rfind "/" p + 1))) p
                (rfind "/" p + 1) (rfind "." p)) as [-> | ->]; simpl.
    + exists (String.length p). now rewrite take_length.
    + now eexists.
  - exists (String.length p). simpl. now rewrite take_length.
Qed.

(** The extension is empty, or a dot followed by characters that are
    neither a dot nor a separator. *)
Lemma splitext_ext_shape (p : string) :
  snd (splitext p) = ""
  \/ exists e, snd (splitext p) = String "." e
               /\ contains "." e = false /\ contains "/" e = false.
Proof.
  unfold splitext.
  destruct (rfind "/" p <? rfind "." p) eqn:E; [|now left].
  apply Z.ltb_lt in E.
  destruct (skip_dots_cases
              (Z.to_nat (rfind "." p - (rfind "/" p + 1))) p
              (rfind "/" p + 1) (rfind "." p)) as [-> | ->]; simpl;
    [now left | right].
  pose proof (rfind_range "/" p) as Rs.
  destruct (rfind_drop "." p) as (r & Hr & Hc); [lia|].
  exists r. unfold slice_from. split; [exact Hr | split; [exact Hc|]].
  rewrite <- (drop_S _ _ _ _ Hr).
  apply contains_drop_rfind. lia.
Qed.

(** A name that ends in a character other than a dot or a separator,
    followed by an extension, is split before the extension. *)
Lemma splitext_join (a : string) (c : ascii) (e : string) :
  c <> "."%char -> c <> "/"%char ->
  contains "." e = false -> contains "/" e = false ->
  splitext (a ++ String c (String "." e)) = (a ++ String c "", String "." e).
Proof.
  intros Hc1 Hc2 He1 He2.
  set (p := a ++ String c (String "." e)).
  assert (Hdot : rfind "." p = len a + 1).
  { unfold p. rewrite rfind_app. simpl rfind.
    apply rfind_none in He1. rewrite He1. simpl. lia. }
  assert (Hsep : rfind "/" p = rfind "/" a).
  { unfold p. rewrite rfind_app.
    assert (rfind "/" (String c (String "." e)) = -1) as ->; [|reflexivity].
    apply rfind_none. simpl. rewrite He2.
    destruct (Ascii.eqb_spec c "/"); [contradiction | reflexivity]. }
  pose proof (rfind_range "/" a) as R.
  assert (Hto : slice_to p (len a + 1) = a ++ String c "").
  { unfold slice_to, p, len.
    replace (a ++ String c (String "." e))
      with ((a ++ String c "") ++ String "." e)
      by (now rewrite app_assoc).
    replace (Z.to_nat (Z.of_nat (String.length a) + 1))
      with (String.length (a ++ String c ""))
      by (rewrite length_app; simpl; lia).
    apply take_app. }
  assert (Hfrom : slice_from p (len a + 1) = String "." e).
  { unfold slice_from, p, len.
    replace (a ++ String c (String "." e))
      with ((a ++ String c "") ++ String "." e)
      by (now rewrite app_assoc).
    replace (Z.to_nat (Z.of_nat (String.length a) + 1))
      with (String.length (a ++ String c ""))
      by (rewrite length_app; simpl; lia).
    apply drop_app. }
  unfold splitext. fold p. rewrite Hdot, Hsep.
  replace (rfind "/" a <? len a + 1) with true
    by (symmetry; apply Z.ltb_lt; lia).
  rewrite (skip_dots_found _ p _ (len a)); [now rewrite Hto, Hfrom | lia | lia |].
  unfold slice1, slice_from, p, len. rewrite Nat2Z.id, drop_app. simpl.
  intros [= ->]. contradiction.
Qed.

End OsPathFacts.

(** ** The matcher finds a match exactly when the pattern denotes one *)

Module ReFacts.
Import PyStrFacts Re.

Section Cont.
Context {R : Type}.
Implicit Types (cont : nat -> string -> option R).

Lemma m_star_sound k s n cont r :
  m_star k s n cont = Some r ->
  exists u v, s = u ++ v /\ all (cls_match k) u = true
              /\ cont (n + String.length u)%nat v = Some r.
Proof.
  revert n; induction s as [|a s IH]; intros n; simpl.
  - intros Hc. exists "", "". rewrite Nat.add_0_r. auto.
  - destruct (cls_match k a) eqn:Ha.
    + destruct (m_star k s (S n) cont) as [r'|] eqn:Hs.
      * intros [= ->]. destruct (IH _ Hs) as (u & v & -> & Hu & Hc).
        exists (String a u), v. simpl. rewrite Ha, Hu.
        rewrite Nat.add_succ_r. auto.
      * intros Hc. exists "", (String a s). rewrite Nat.add_0_r. auto.
    + intros Hc. exists "", (String a s). rewrite Nat.add_0_r. auto.
Qed.

Lemma m_star_complete k u v n cont :
  all (cls_match k) u = true ->
  is_Some (cont (n + String.length u)%nat v) ->
  is_Some (m_star k (u ++ v) n cont).
Proof.
  revert n; induction u as [|a u IH]; intros n; simpl.
  - rewrite Nat.add_0_r. intros _ Hc. destruct v as [|b v]; simpl; [exact Hc|].
    destruct (cls_match k b); [|exact Hc].
    destruct (m_star k v (S n) cont); [eauto | exact Hc].
  - rewrite andb_true_iff, Nat.add_succ_r. intros [-> Hu] Hc.
    destruct (IH (S n) Hu Hc) as [r ->]. eauto.
Qed.

Lemma m_atom_sound a s n cont r :
  m_atom a s n cont = Some r ->
  exists u v, s = u ++ v /\ atom_lang a u
              /\ cont (n + String.length u)%nat v = Some r.
Proof.
  destruct a as [k []]; simpl.
  - destruct s as [|x s]; [discriminate|].
    destruct (cls_match k x) eqn:Hx; [|discriminate].
    intros Hc. exists (String x ""), s. simpl. rewrite Nat.add_1_r. eauto.
  - assert (cont n s = Some r ->
            exists u v, s = u ++ v
              /\ (u = "" \/ exists c, u = String c "" /\ cls_match k c = true)
              /\ cont (n + String.length u)%nat v = Some r) as Hskip.
    { intros Hc. exists "", s. rewrite Nat.add_0_r. auto. }
    destruct s as [|x s]; [exact Hskip|].
    destruct (cls_match k x) eqn:Hx; [|exact Hskip].
    destruct (cont (S n) s) as [r'|] eqn:Hs; [|exact Hskip].
    intros [= ->]. exists (String x ""), s. simpl. rewrite Nat.add_1_r.
    split; [reflexivity | split; [right; eauto | exact Hs]].
  - apply m_star_sound.
  - destruct s as [|x s]; [discriminate|].
    destruct (cls_match k x) eqn:Hx; [|discriminate].
    intros Hs. destruct (m_star_sound _ _ _ _ _ Hs) as (u & v & -> & Hu & Hc).
    exists (String x u), v. simpl. rewrite Hx, Hu, Nat.add_succ_r.
    repeat split; [discriminate | exact Hc].
Qed.

Lemma m_atom_complete a u v n cont :
  atom_lang a u ->
  is_Some (cont (n + String.length u)%nat v) ->
  is_Some (m_atom a (u ++ v) n cont).
Proof.
  destruct a as [k []]; simpl.
  - intros (c & -> & Hc). simpl. now rewrite Hc, Nat.add_1_r.
  - intros [-> | (c & -> & Hc)]; simpl.
    + rewrite Nat.add_0_r. intros Hk. destruct v as [|b v]; [exact Hk|].
      destruct (cls_match k b); [|exact Hk].
      destruct (cont (S n) v); [eauto | exact Hk].
    + rewrite Hc, Nat.add_1_r. intros [r ->]. eauto.
  - apply m_star_complete.
  - intros [Hne Hu]. destruct u as [|x u]; [contradiction|].
    simpl in *. apply andb_true_iff in Hu as [-> Hu].
    rewrite Nat.add_succ_r. intros Hc.
    exact (m_star_complete k u v (S n) cont Hu Hc).
Qed.

Lemma m_atoms_sound l s n cont r :
  m_atoms l s n cont = Some r ->
  exists u v, s = u ++ v /\ atoms_lang l u
              /\ cont (n + String.length u)%nat v = Some r.
Proof.
  revert s n; induction l as [|a l IH]; intros s n; simpl.
  - intros Hc. exists "", s. rewrite Nat.add_0_r. auto.
  - intros Ha. apply m_atom_sound in Ha as (u1 & v1 & -> & Hu1 & Hl).
    apply IH in Hl as (u2 & v & -> & Hu2 & Hc).
    exists (u1 ++ u2), v. rewrite app_assoc, length_app, Nat.add_assoc.
    repeat split; [|exact Hc]. now exists u1, u2.
Qed.

Lemma m_atoms_complete l u v n cont :
  atoms_lang l u ->
  is_Some (cont (n + String.length u)%nat v) ->
  is_Some (m_atoms l (u ++ v) n cont).
Proof.
  revert u n; induction l as [|a l IH]; intros u n; simpl.
  - intros ->. now rewrite Nat.add_0_r.
  - intros (u1 & u2 & -> & Hu1 & Hu2) Hc. rewrite app_assoc.
    apply m_atom_complete; [exact Hu1|].
    apply IH; [exact Hu2|].
    now rewrite <- Nat.add_assoc, <- length_app.
Qed.
End Cont.

Lemma m_nodes_sound l s n caps r :
  m_nodes l s n caps = Some r -> nodes_sem l s n caps r.
Proof.
  revert s n caps; induction l as [|[| |a|body] l IH]; intros s n caps; simpl.
  - now intros [= <-].
  - destruct (Nat.eqb_spec n 0); [|discriminate]. auto.
  - destruct (at_end s); [|discriminate]. auto.
  - intros Hm. apply m_atom_sound in Hm as (u & v & -> & Hu & Hm).
    exists u, v. auto.
  - intros Hm. apply m_atoms_sound in Hm as (u & v & -> & Hu & Hm).
    exists u, v. repeat split; [exact Hu|].
    apply IH in Hm.
    replace (n + String.length u - n)%nat with (String.length u) in Hm by lia.
    now rewrite take_app in Hm.
Qed.

Lemma m_nodes_complete l s n caps r :
  nodes_sem l s n caps r -> is_Some (m_nodes l s n caps).
Proof.
  revert s n caps; induction l as [|[| |a|body] l IH]; intros s n caps; simpl.
  - eauto.
  - intros [-> Hs]. simpl. eauto.
  - intros [-> Hs]. eauto.
  - intros (u & v & -> & Hu & Hs). apply m_atom_complete; eauto.
  - intros (u & v & -> & Hu & Hs). apply m_atoms_complete; [exact Hu|].
    replace (n + String.length u - n)%nat with (String.length u) by lia.
    rewrite take_app. eauto.
Qed.

End ReFacts.

(** ** The two patterns of the script *)

Module PatternFacts.
Import PyStrFacts Re ReFacts.

Lemma number_lang (u : string) : atoms_lang number u <-> is_number u.
Proof.
  unfold number, is_number; simpl. split.
  - intros (u1 & r1 & -> & H1 & u2 & r2 & -> & [Hne H2]
            & u3 & r3 & -> & H3 & u4 & r4 & -> & H4 & ->).
    exists u1, u2, u3, u4. rewrite app_nil_r.
    split; [reflexivity|]. split.
    { destruct H1 as [->|(c & -> & Hc)]; [now left | right].
      now apply Ascii.eqb_eq in Hc as ->. }
    split; [exact Hne|]. split; [exact H2|]. split; [|exact H4].
    destruct H3 as [->|(c & -> & Hc)]; [now left | right].
    now apply Ascii.eqb_eq in Hc as ->.
  - intros (sgn & ip & dot & fp & -> & Hs & Hne & Hip & Hd & Hfp).
    exists sgn, (ip ++ dot ++ fp). split; [reflexivity|]. split.
    { destruct Hs as [-> | ->]; [now left | right]. now exists "-"%char. }
    exists ip, (dot ++ fp). split; [reflexivity|]. split; [now split|].
    exists dot, fp. split; [reflexivity|]. split.
    { destruct Hd as [-> | ->]; [now left | right]. now exists "."%char. }
    exists fp, "". now rewrite app_nil_r.
Qed.

Lemma is_number_chars (u : string) :
  is_number u -> all number_char u = true.
Proof.
  intros (sgn & ip & dot & fp & -> & Hs & _ & Hip & Hd & Hfp).
  rewrite !all_app.
  assert (forall s, all is_digit s = true -> all number_char s = true) as Hd'.
  { intros s. apply all_impl. intros c Hc. unfold number_char. now rewrite Hc. }
  rewrite (Hd' _ Hip), (Hd' _ Hfp).
  now destruct Hs as [-> | ->], Hd as [-> | ->].
Qed.

Lemma is_number_without (c : ascii) (u : string) :
  number_char c = false -> is_number u -> contains c u = false.
Proof.
  intros Hc Hu. eapply all_not_contains; [exact Hc|].
  now apply is_number_chars.
Qed.

Lemma lit_sem (t : string) (l : regex) s n caps r :
  nodes_sem (lit t ++ l)%list s n caps r
  <-> exists v, s = t ++ v /\ nodes_sem l v (n + String.length t) caps r.
Proof.
  revert s n; induction t as [|c t IH]; intros s n; simpl.
  - rewrite Nat.add_0_r. split; [eauto | now intros (v & -> & Hv)].
  - split.
    + intros (u & v & -> & (x & -> & Hx) & Hs).
      apply Ascii.eqb_eq in Hx as ->. apply IH in Hs as (w & -> & Hw).
      exists w. split; [reflexivity|].
      simpl in Hw. now rewrite Nat.add_1_r, Nat.add_succ_r in *.
    + intros (v & -> & Hv). exists (String c ""), (t ++ v).
      split; [reflexivity|]. split.
      { exists c. split; [reflexivity | apply Ascii.eqb_refl]. }
      apply IH. exists v. split; [reflexivity|].
      simpl. now rewrite Nat.add_1_r, Nat.add_succ_r in *.
Qed.

(** *** [pattern1] *)

Lemma pattern1_sem_inv s r :
  nodes_sem pattern1 s 0 [] r ->
  exists ident la lo rest,
    shape1 s ident la lo rest /\ snd r = [ident; la; lo].
Proof.
  unfold pattern1, shape1. simpl.
  intros (_ & u1 & v1 & -> & (i1 & e1 & -> & [Hne Hi] & ->)
          & c1 & w1 & -> & (x1 & -> & Hx1)
          & la & v2 & -> & Hla
          & c2 & w2 & -> & (x2 & -> & Hx2)
          & lo & v3 & -> & Hlo
          & c3 & w3 & -> & (x3 & -> & Hx3) & ->).
  apply Ascii.eqb_eq in Hx1 as ->, Hx2 as ->, Hx3 as ->.
  rewrite app_nil_r in *. exists i1, la, lo, w3. simpl.
  repeat split; try assumption.
  - now apply contains_false_all.
  - now apply number_lang.
  - now apply number_lang.
Qed.

Lemma pattern1_sem_intro s ident la lo rest :
  shape1 s ident la lo rest ->
  exists n, nodes_sem pattern1 s 0 [] (n, [ident; la; lo]).
Proof.
  intros (-> & Hne & Hc & Hla & Hlo). eexists.
  unfold pattern1. simpl.
  split; [reflexivity|].
  exists ident, ("," ++ la ++ "," ++ lo ++ "," ++ rest).
  split; [reflexivity|]. split.
  { exists ident, "". rewrite app_nil_r. repeat split; try assumption.
    now apply contains_false_all. }
  exists ",", (la ++ "," ++ lo ++ "," ++ rest).
  split; [reflexivity|]. split; [now exists ","%char|].
  exists la, ("," ++ lo ++ "," ++ rest).
  split; [reflexivity|]. split; [now apply number_lang|].
  exists ",", (lo ++ "," ++ rest).
  split; [reflexivity|]. split; [now exists ","%char|].
  exists lo, ("," ++ rest).
  split; [reflexivity|]. split; [now apply number_lang|].
  exists ",", rest.
  split; [reflexivity|]. split; [now exists ","%char|].
  reflexivity.
Qed.

Lemma shape1_unique s i1 a1 o1 r1 i2 a2 o2 r2 :
  shape1 s i1 a1 o1 r1 -> shape1 s i2 a2 o2 r2 ->
  i1 = i2 /\ a1 = a2 /\ o1 = o2.
Proof.
  intros (-> & _ & Hc1 & Ha1 & Ho1) (E & _ & Hc2 & Ha2 & Ho2).
  simpl in E.
  apply split_first_unique in E as [-> E]; [|assumption..].
  apply split_first_unique in E as [-> E];
    [|now apply is_number_without..].
  apply split_first_unique in E as [-> E];
    [|now apply is_number_without..].
  auto.
Qed.

(** [re.match(pattern1, s)] succeeds exactly on the texts of that
    shape, and its groups 1 to 3 are the three fields. *)
Lemma match1_inv s m :
  re_match pattern1 s = Some m ->
  exists ident la lo rest whole,
    shape1 s ident la lo rest /\ m = [whole; ident; la; lo].
Proof.
  unfold re_match.
  destruct (m_nodes pattern1 s 0 []) as [[n caps]|] eqn:Hm; [|discriminate].
  intros [= <-]. apply m_nodes_sound, pattern1_sem_inv in Hm
    as (ident & la & lo & rest & Hs & Hr).
  simpl in Hr. subst caps. now exists ident, la, lo, rest, (str_take n s).
Qed.

Lemma match1_intro s ident la lo rest :
  shape1 s ident la lo rest ->
  exists whole, re_match pattern1 s = Some [whole; ident; la; lo].
Proof.
  intros Hs. unfold re_match.
  destruct (pattern1_sem_intro _ _ _ _ _ Hs) as [n Hn].
  destruct (m_nodes_complete _ _ _ _ _ Hn) as [[n' caps] Hm].
  rewrite Hm. apply m_nodes_sound, pattern1_sem_inv in Hm
    as (i2 & a2 & o2 & r2 & Hs2 & Hr).
  simpl in Hr. subst caps.
  destruct (shape1_unique _ _ _ _ _ _ _ _ _ Hs Hs2) as (-> & -> & ->).
  eauto.
Qed.

(** a text without a comma is no match of [pattern1] *)
Lemma match1_needs_comma s :
  contains "," s = false -> re_match pattern1 s = None.
Proof.
  intros Hc. destruct (re_match pattern1 s) as [m|] eqn:Hm; [|reflexivity].
  apply match1_inv in Hm as (ident & la & lo & rest & whole & (-> & _) & _).
  rewrite contains_app in Hc. simpl in Hc.
  now rewrite orb_true_r in Hc.
Qed.

(** *** [pattern2] *)

Lemma at_end_cases (t : string) :
  at_end t = true <-> t = "" \/ t = String "010" "".
Proof.
  destruct t as [|a [|b t]]; simpl.
  - tauto.
  - rewrite Ascii.eqb_eq. split; [intros ->; now right|].
    now intros [|[= ->]].
  - split; [discriminate | now intros [|]].
Qed.

Lemma anchored_sem (t : string) s r :
  nodes_sem ([Bol] ++ lit t ++ [Grp number] ++ lit "_" ++ [Grp number]
             ++ [Eol])%list s 0 [] r <->
  exists la lo tail,
    s = t ++ la ++ "_" ++ lo ++ tail /\ at_end tail = true
    /\ atoms_lang number la /\ atoms_lang number lo
    /\ r = ((String.length t + String.length la + 1 + String.length lo)%nat,
            [la; lo]).
Proof.
  change ([Bol] ++ lit t ++ [Grp number] ++ lit "_" ++ [Grp number]
          ++ [Eol])%list
    with (Bol :: (lit t ++ [Grp number; At (Rep (Lit "_") One);
                            Grp number; Eol]))%list.
  cbn [nodes_sem]. rewrite lit_sem. cbn [nodes_sem]. split.
  - intros (_ & v & -> & la & v1 & -> & Hla & c & v2 & -> & (x & -> & Hx)
            & lo & tail & -> & Hlo & He & ->).
    apply Ascii.eqb_eq in Hx as ->.
    exists la, lo, tail. simpl.
    repeat split; try assumption; try (f_equal; lia).
  - intros (la & lo & tail & -> & He & Hla & Hlo & ->).
    split; [reflexivity|]. exists (la ++ "_" ++ lo ++ tail).
    split; [reflexivity|]. exists la, ("_" ++ lo ++ tail).
    split; [reflexivity|]. split; [exact Hla|].
    exists "_", (lo ++ tail).
    split; [reflexivity|]. split; [now exists "_"%char|].
    exists lo, tail. simpl.
    repeat split; try assumption; try (f_equal; lia).
Qed.

Lemma shape2_unique s a1 o1 t1 a2 o2 t2 :
  shape2 s a1 o1 t1 -> shape2 s a2 o2 t2 -> a1 = a2 /\ o1 = o2.
Proof.
  intros (-> & He1 & Ha1 & Ho1) (E & He2 & Ha2 & Ho2).
  simpl in E. injection E as E.
  apply split_first_unique in E as [-> E];
    [|now apply is_number_without..].
  split; [reflexivity|].
  pose proof (is_number_without "010" _ eq_refl Ho1) as N1.
  pose proof (is_number_without "010" _ eq_refl Ho2) as N2.
  apply at_end_cases in He1 as [-> | ->], He2 as [-> | ->].
  - now rewrite !app_nil_r in E.
  - rewrite app_nil_r in E. subst o1.
    rewrite contains_app in N1. simpl in N1. now rewrite orb_true_r in N1.
  - rewrite app_nil_r in E. subst o2.
    rewrite contains_app in N2. simpl in N2. now rewrite orb_true_r in N2.
  - now apply split_first_unique in E as [-> _].
Qed.

(** [re.match(pattern2, s)] succeeds exactly on "satellite_", two
    coordinates joined by "_", and then the end of the text or one
    final line feed; its groups 1 and 2 are the coordinates. *)
Lemma match2_inv s m :
  re_match pattern2 s = Some m ->
  exists la lo tail whole, shape2 s la lo tail /\ m = [whole; la; lo].
Proof.
  unfold re_match.
  destruct (m_nodes pattern2 s 0 []) as [[n caps]|] eqn:Hm; [|discriminate].
  intros [= <-]. apply m_nodes_sound in Hm. unfold pattern2 in Hm.
  apply anchored_sem in Hm as (la & lo & tail & Hs & He & Hla & Hlo & [= _ ->]).
  exists la, lo, tail, (str_take n s).
  split; [|reflexivity]. repeat split; try assumption; now apply number_lang.
Qed.

Lemma match2_intro s la lo tail :
  shape2 s la lo tail ->
  exists whole, re_match pattern2 s = Some [whole; la; lo].
Proof.
  intros Hs. unfold re_match.
  assert (is_Some (m_nodes pattern2 s 0 [])) as [[n caps] Hm].
  { eapply m_nodes_complete. unfold pattern2. apply anchored_sem.
    destruct Hs as (Hs & He & Hla & Hlo).
    exists la, lo, tail.
    repeat split; try assumption; now apply number_lang. }
  rewrite Hm.
  assert (exists whole, [whole; la; lo] = str_take n s :: caps) as [w <-];
    [|eauto].
  assert (re_match pattern2 s = Some (str_take n s :: caps)) as Hr
    by (unfold re_match; now rewrite Hm).
  apply match2_inv in Hr as (a2 & o2 & t2 & w2 & Hs2 & [= -> ->]).
  destruct (shape2_unique _ _ _ _ _ _ _ Hs Hs2) as (-> & ->). eauto.
Qed.

(** a match of [pattern2] starts with the letter s *)
Lemma match2_needs_s (c : ascii) (s : string) :
  c <> "s"%char -> re_match pattern2 (String c s) = None.
Proof.
  intros Hc. destruct (re_match pattern2 (String c s)) as [m|] eqn:Hm;
    [|reflexivity].
  apply match2_inv in Hm as (la & lo & tail & whole & (E & _) & _).
  simpl in E. now injection E as -> _.
Qed.

Lemma match2_empty : re_match pattern2 "" = None.
Proof. reflexivity. Qed.

(** no text is a match of both patterns *)
Lemma patterns_exclusive s m1 m2 :
  re_match pattern1 s = Some m1 -> re_match pattern2 s = Some m2 -> False.
Proof.
  intros H1 H2.
  apply match2_inv in H2 as (la & lo & tail & w & (-> & He & Hla & Hlo) & _).
  rewrite match1_needs_comma in H1; [discriminate|].
  change ("satellite_" ++ la ++ "_" ++ lo ++ tail)
    with ("satellite_" ++ (la ++ "_" ++ (lo ++ tail))).
  rewrite !contains_app.
  rewrite (is_number_without "," la eq_refl Hla),
          (is_number_without "," lo eq_refl Hlo).
  now apply at_end_cases in He as [-> | ->].
Qed.

End PatternFacts.

(** ** [float], [repr] and the [.6f] format *)

Module PyFloatFacts.
Import PyStrFacts PyFloat.

Lemma span_all p (a b : string) :
  all p a = true ->
  match b with String c _ => p c = false | "" => True end ->
  span p (a ++ b) = (a, b).
Proof.
  intros Ha Hb. induction a as [|x a IH]; simpl in *.
  - destruct b as [|c b]; simpl; [reflexivity | now rewrite Hb].
  - apply andb_true_iff in Ha as [-> Ha]. now rewrite (IH Ha).
Qed.

Lemma digit_not (c d : ascii) :
  is_digit c = true -> is_digit d = false -> Ascii.eqb c d = false.
Proof.
  intros Hc Hd. destruct (Ascii.eqb_spec c d) as [->|]; congruence.
Qed.

(** after the sign: digits, and maybe a point and more digits *)
Lemma split_point_number (ip dot fp : string) :
  ip <> "" -> all is_digit ip = true ->
  dot = "" \/ dot = "." -> all is_digit fp = true ->
  exists ip' fp', split_point (ip ++ dot ++ fp) = Some (ip', fp').
Proof.
  intros Hne Hip [-> | ->] Hfp; unfold split_point.
  - assert (span is_digit (ip ++ "" ++ fp) = (ip ++ fp, "")) as ->.
    { pose proof (span_all is_digit (ip ++ fp) "") as E.
      rewrite app_nil_r in E. apply E; [|exact I].
      now rewrite all_app, Hip, Hfp. }
    destruct ip as [|c ip]; [contradiction|]. simpl. eauto.
  - rewrite span_all; [|exact Hip | reflexivity].
    assert (span is_digit fp = (fp, "")) as Hsp.
    { pose proof (span_all is_digit fp "") as E.
      rewrite app_nil_r in E. apply E; [exact Hfp | exact I]. }
    cbn [String.append Ascii.eqb Bool.eqb]. rewrite Hsp.
    destruct ip as [|c ip]; [contradiction|]. simpl. eauto.
Qed.

Lemma split_sign_digit (c : ascii) (r : string) :
  is_digit c = true -> split_sign (String c r) = (false, String c r).
Proof.
  intros Hc. unfold split_sign.
  now rewrite (digit_not c "-" Hc eq_refl), (digit_not c "+" Hc eq_refl).
Qed.

(** [float] accepts every coordinate the patterns accept. *)
Lemma float_of_str_number (u : string) :
  is_number u -> exists x, float_of_str u = ret x.
Proof.
  intros (sgn & ip & dot & fp & -> & Hs & Hne & Hip & Hd & Hfp).
  destruct (split_point_number ip dot fp Hne Hip Hd Hfp) as (ip' & fp' & Hp).
  unfold float_of_str. destruct Hs as [-> | ->].
  - change ("" ++ ip ++ dot ++ fp) with (ip ++ dot ++ fp).
    destruct ip as [|c ip0]; [contradiction|].
    change (String c ip0 ++ dot ++ fp) with (String c (ip0 ++ dot ++ fp)) in *.
    apply andb_true_iff in Hip as [Hc _].
    rewrite (split_sign_digit _ _ Hc). lazy beta iota. rewrite Hp. eauto.
  - change (split_sign ("-" ++ ip ++ dot ++ fp))
      with (true, ip ++ dot ++ fp).
    lazy beta iota. rewrite Hp. eauto.
Qed.

(** *** The characters of the two formats *)

Lemma digit_float_char (s : string) :
  all is_digit s = true -> all float_char s = true.
Proof.
  apply all_impl. intros c Hc. unfold float_char. now rewrite Hc.
Qed.

Lemma all_digit_uint (d : uint) :
  all is_digit (NilEmpty.string_of_uint d) = true.
Proof. induction d; simpl; auto. Qed.

Lemma all_digit_dec (n : N) : all is_digit (dec n) = true.
Proof.
  unfold dec, NilZero.string_of_uint.
  destruct (N.to_uint n); try apply all_digit_uint. reflexivity.
Qed.

Lemma dec_nonempty (n : N) : dec n <> "".
Proof.
  unfold dec, NilZero.string_of_uint.
  destruct (N.to_uint n); simpl; discriminate.
Qed.

Lemma all_digit_zeros (n : nat) : all is_digit (zeros n) = true.
Proof. induction n; simpl; auto. Qed.

Lemma is_digit_digit_char (d : Z) : is_digit (digit_char d) = true.
Proof.
  unfold digit_char. pose proof (Z.mod_pos_bound d 10 eq_refl) as B.
  set (k := Z.to_nat (d mod 10)). assert (k < 10)%nat as Hk by (unfold k; lia).
  clearbody k. clear B.
  do 10 (destruct k as [|k]; [reflexivity|]). lia.
Qed.

Lemma all_digit_fixed (w : nat) (n : Z) :
  all is_digit (digits_fixed w n) = true.
Proof.
  revert n; induction w as [|w IH]; intros n; simpl; [reflexivity|].
  rewrite all_app, IH. cbn [all andb]. now rewrite is_digit_digit_char.
Qed.

Lemma length_digits_fixed (w : nat) (n : Z) :
  String.length (digits_fixed w n) = w.
Proof.
  revert n; induction w as [|w IH]; intros n; simpl; [reflexivity|].
  rewrite length_app, IH. simpl. lia.
Qed.

Lemma format_f6_chars (x : float) : all float_char (format_f6 x) = true.
Proof.
  destruct x as [[]|[]| |s m e]; try reflexivity.
  unfold format_f6. rewrite !all_app.
  rewrite (digit_float_char _ (all_digit_dec _)).
  rewrite (digit_float_char _ (all_digit_fixed _ _)).
  now destruct s.
Qed.

Lemma repr_finite_chars (m : positive) (e : Z) :
  all float_char (repr_finite m e) = true.
Proof.
  unfold repr_finite.
  destruct (shortest _ _ _ _ _) as [d0 j0].
  destruct (strip_zeros _ _ _) as [d j].
  set (ds := dec (Z.to_N d)).
  assert (Hds : all float_char ds = true)
    by apply digit_float_char, all_digit_dec.
  clearbody ds.
  pose proof (fun n => digit_float_char _ (all_digit_zeros n)) as Hz.
  pose proof (fun n => digit_float_char _ (all_digit_dec n)) as Hd.
  destruct (_ || _).
  - destruct ds as [|c rest]; [reflexivity|].
    cbn [all] in Hds. apply andb_true_iff in Hds as [Hc Hrest].
    change (String c ?a ++ ?b) with (String c (a ++ b)).
    cbn [all]. rewrite Hc, !all_app, Hz, Hd. cbn [andb].
    assert (all float_char
              match rest with "" => "" | String _ _ => "." ++ rest end = true)
      as -> by (destruct rest; [reflexivity | exact Hrest]).
    now destruct (_ <? 0).
  - destruct (_ <=? 0).
    + change ("0." ++ ?a) with (String "0" (String "." a)).
      cbn [all]. now rewrite all_app, Hds, Hz.
    + destruct (_ <=? _).
      * now rewrite !all_app, Hds, Hz.
      * rewrite !all_app, all_take, all_drop; auto.
Qed.

Lemma repr_chars (x : float) : all float_char (repr x) = true.
Proof.
  destruct x as [[]|[]| |s m e]; try reflexivity.
  unfold repr. rewrite all_app, repr_finite_chars. now destruct s.
Qed.

(** *** Six digits after the point *)

Lemma format_f6_fixed6 (x : float) :
  is_finite x = true -> fixed6 (format_f6 x).
Proof.
  destruct x as [s|s| |s m e]; try discriminate; intros _.
  - exists (sign_str s), "0", "000000".
    repeat split; try reflexivity; try discriminate.
    destruct s; auto.
  - unfold format_f6.
    set (n := round_half_even (scaled m e 6)).
    exists (sign_str s), (dec (Z.to_N (n / 1000000))),
           (digits_fixed 6 (n mod 1000000)).
    split; [reflexivity|]. split; [destruct s; auto|].
    split; [apply dec_nonempty|]. split; [apply all_digit_dec|].
    split; [apply all_digit_fixed | apply length_digits_fixed].
Qed.

Lemma fixed6_has_point (s : string) : fixed6 s -> contains "." s = true.
Proof.
  intros (sgn & ip & fp & -> & _). rewrite !contains_app. simpl.
  now rewrite !orb_true_r.
Qed.

Lemma fixed6_chars (s : string) : fixed6 s -> all float_char s = true.
Proof.
  intros (sgn & ip & fp & -> & Hs & _ & Hip & Hfp & _).
  rewrite !all_app, (digit_float_char _ Hip), (digit_float_char _ Hfp).
  now destruct Hs as [-> | ->].
Qed.

End PyFloatFacts.

(** ** [parse_filename] *)

Module ParseFacts.
Import PyStrFacts OsPath OsPathFacts Re PatternFacts PyFloat PyFloatFacts.

Lemma parse_pattern1_none b e :
  re_match pattern1 b = None -> parse_pattern1 b e = ret None.
Proof. unfold parse_pattern1. now intros ->. Qed.

Lemma parse_pattern2_none b e :
  re_match pattern2 b = None -> parse_pattern2 b e = ret None.
Proof. unfold parse_pattern2. now intros ->. Qed.

Lemma parse_pattern1_some b e ident la lo rest :
  shape1 b ident la lo rest ->
  exists x y,
    float_of_str la = ret x /\ float_of_str lo = ret y
    /\ parse_pattern1 b e = ret (Some (Info ident x y true e)).
Proof.
  intros Hs. destruct (match1_intro _ _ _ _ _ Hs) as [whole Hm].
  destruct Hs as (_ & _ & _ & Hla & Hlo).
  destruct (float_of_str_number _ Hla) as [x Hx].
  destruct (float_of_str_number _ Hlo) as [y Hy].
  exists x, y. unfold parse_pattern1. rewrite Hm.
  cbn [group nth]. rewrite Hx, Hy. auto.
Qed.

Lemma parse_pattern2_some b e la lo tail :
  shape2 b la lo tail ->
  exists x y,
    float_of_str la = ret x /\ float_of_str lo = ret y
    /\ parse_pattern2 b e =
       ret (Some (Info (replace "-" "n"
                          (replace "." "" (repr x ++ "_" ++ repr y)))
                       x y false e)).
Proof.
  intros Hs. destruct (match2_intro _ _ _ _ Hs) as [whole Hm].
  destruct Hs as (_ & _ & Hla & Hlo).
  destruct (float_of_str_number _ Hla) as [x Hx].
  destruct (float_of_str_number _ Hlo) as [y Hy].
  exists x, y. unfold parse_pattern2. rewrite Hm.
  cbn [group nth]. rewrite Hx, Hy. auto.
Qed.

(** what each branch returns, by whether its pattern matches *)
Lemma parse_pattern1_cases b e :
  (re_match pattern1 b = None /\ parse_pattern1 b e = ret None)
  \/ exists ident la lo rest x y,
       shape1 b ident la lo rest
       /\ parse_pattern1 b e = ret (Some (Info ident x y true e)).
Proof.
  destruct (re_match pattern1 b) as [m|] eqn:Hm.
  - right. apply match1_inv in Hm as (ident & la & lo & rest & w & Hs & _).
    destruct (parse_pattern1_some b e _ _ _ _ Hs) as (x & y & _ & _ & Hp).
    now exists ident, la, lo, rest, x, y.
  - left. split; [reflexivity | now apply parse_pattern1_none].
Qed.

Lemma parse_pattern2_cases b e :
  (re_match pattern2 b = None /\ parse_pattern2 b e = ret None)
  \/ exists la lo tail x y,
       shape2 b la lo tail
       /\ parse_pattern2 b e =
          ret (Some (Info (replace "-" "n"
                             (replace "." "" (repr x ++ "_" ++ repr y)))
                          x y false e)).
Proof.
  destruct (re_match pattern2 b) as [m|] eqn:Hm.
  - right. apply match2_inv in Hm as (la & lo & tail & w & Hs & _).
    destruct (parse_pattern2_some b e _ _ _ Hs) as (x & y & _ & _ & Hp).
    now exists la, lo, tail, x, y.
  - left. split; [reflexivity | now apply parse_pattern2_none].
Qed.

(** [parse_filename] raises on no file name. *)
Lemma parse_filename_returns (filename : string) :
  exists r, parse_filename filename = ret r.
Proof.
  unfold parse_filename.
  destruct (parse_pattern1_cases (fst (splitext filename))
              (snd (splitext filename)))
    as [[_ ->] | (ident & la & lo & rest & x & y & _ & ->)]; simpl; [|eauto].
  destruct (parse_pattern2_cases (fst (splitext filename))
              (snd (splitext filename)))
    as [[_ ->] | (la & lo & tail & x & y & _ & ->)]; eauto.
Qed.

Lemma float_char_no_comma (s : string) :
  all float_char s = true -> contains "," s = false.
Proof. now apply all_not_contains. Qed.

(** the identifier of a record [parse_filename] returns holds no
    comma, and its extension is the one [splitext] cut off *)
Lemma parse_filename_some (filename : string) (i : info) :
  parse_filename filename = ret (Some i) ->
  contains "," (id i) = false /\ ext i = snd (splitext filename).
Proof.
  unfold parse_filename.
  destruct (parse_pattern1_cases (fst (splitext filename))
              (snd (splitext filename)))
    as [[_ ->] | (ident & la & lo & rest & x & y & Hs & ->)]; simpl.
  - destruct (parse_pattern2_cases (fst (splitext filename))
                (snd (splitext filename)))
      as [[_ ->] | (la & lo & tail & x & y & _ & ->)]; [discriminate|].
    intros [= <-]. simpl. split; [|reflexivity].
    apply replace_keeps_out; [reflexivity|].
    apply replace_keeps_out; [reflexivity|].
    rewrite contains_app. cbn [String.append contains].
    rewrite !float_char_no_comma by apply repr_chars.
    reflexivity.
  - intros [= <-]. simpl. split; [|reflexivity].
    now destruct Hs as (_ & _ & Hc & _).
Qed.

End ParseFacts.

(** * The parser and the generator *)

Import PyStrFacts OsPath OsPathFacts Re PatternFacts PyFloat PyFloatFacts.
Import ParseFacts.

(** C1. A file name whose base name starts with an identifier without a
    comma, a comma, a coordinate, a comma, a second coordinate and a
    comma is parsed to a query record: the identifier verbatim, the two
    coordinates as floats, and the extension [splitext] cut off.  What
    follows the third comma is ignored. *)
Theorem parse_query_name (filename ident la lo rest : string) :
  fst (splitext filename) = ident ++ "," ++ la ++ "," ++ lo ++ "," ++ rest ->
  ident <> "" -> contains "," ident = false ->
  is_number la -> is_number lo ->
  exists x y,
    float_of_str la = ret x /\ float_of_str lo = ret y
    /\ parse_filename filename =
       ret (Some (Info ident x y true (snd (splitext filename)))).
Proof.
  intros Hb Hne Hc Hla Hlo.
  assert (shape1 (fst (splitext filename)) ident la lo rest) as Hs
    by (repeat split; assumption).
  destruct (parse_pattern1_some _ (snd (splitext filename)) _ _ _ _ Hs)
    as (x & y & Hx & Hy & Hp).
  exists x, y. unfold parse_filename. now rewrite Hp.
Qed.

Lemma parse_query_name_witness :
  exists x y,
    float_of_str "37.788169" = ret x /\ float_of_str "-122.400728" = ret y
    /\ parse_filename "abc123,37.788169,-122.400728,.jpg" =
       ret (Some (Info "abc123" x y true
                    (snd (splitext "abc123,37.788169,-122.400728,.jpg")))).
Proof.
  apply (parse_query_name "abc123,37.788169,-122.400728,.jpg"
           "abc123" "37.788169" "-122.400728" "").
  - reflexivity.
  - discriminate.
  - reflexivity.
  - exists "", "37", ".", "788169". repeat split; auto; discriminate.
  - exists "-", "122", ".", "400728". repeat split; auto; discriminate.
Defined.

(** without an identifier before the first comma there is no match *)
Example parse_empty_identifier :
  parse_filename ",37.788169,-122.400728,.jpg" = ret None.
Proof. vm_compute. reflexivity. Qed.

(** The example of the specification, with the two doubles written
    out: 37.788169 is 5318211994606667 * 2^-47 and -122.400728 is
    -8613185515791835 * 2^-46. *)
Example parse_query_name_example :
  parse_filename "abc123,37.788169,-122.400728,.jpg"
  = ret (Some (Info "abc123"
                 (S754_finite false 5318211994606667 (-47))
                 (S754_finite true 8613185515791835 (-46)) true ".jpg")).
Proof. vm_compute. reflexivity. Qed.

(** C2. A file name whose base name is exactly "satellite_", a
    coordinate, "_" and a coordinate is parsed to a reference record.
    Its identifier is the text of the two floats joined by "_", with
    every "." removed and every "-" replaced by "n"; it holds neither
    character. *)
Theorem parse_satellite_name (filename la lo : string) :
  fst (splitext filename) = "satellite_" ++ la ++ "_" ++ lo ->
  is_number la -> is_number lo ->
  exists x y,
    float_of_str la = ret x /\ float_of_str lo = ret y
    /\ parse_filename filename =
       ret (Some (Info (replace "-" "n"
                          (replace "." "" (repr x ++ "_" ++ repr y)))
                       x y false (snd (splitext filename))))
    /\ (forall i, parse_filename filename = ret (Some i) ->
          contains "." (id i) = false /\ contains "-" (id i) = false).
Proof.
  intros Hb Hla Hlo.
  assert (shape2 (fst (splitext filename)) la lo "") as Hs.
  { repeat split; try assumption. rewrite Hb.
    change ("satellite_" ++ la ++ "_" ++ lo ++ "")
      with ("satellite_" ++ la ++ "_" ++ (lo ++ "")).
    now rewrite app_nil_r. }
  destruct (parse_pattern2_some _ (snd (splitext filename)) _ _ _ Hs)
    as (x & y & Hx & Hy & Hp).
  assert (re_match pattern1 (fst (splitext filename)) = None) as H1.
  { destruct (re_match pattern1 _) as [m1|] eqn:E1; [|reflexivity].
    destruct (match2_intro _ _ _ _ Hs) as [w E2].
    destruct (patterns_exclusive _ _ _ E1 E2). }
  assert (parse_filename filename =
          ret (Some (Info (replace "-" "n"
                             (replace "." "" (repr x ++ "_" ++ repr y)))
                          x y false (snd (splitext filename))))) as Hparse.
  { unfold parse_filename.
    now rewrite (parse_pattern1_none _ _ H1), Hp. }
  exists x, y. repeat split; try assumption.
  - rewrite Hparse in H. injection H as <-. simpl.
    apply replace_keeps_out; [reflexivity|].
    now apply replace_removes.
  - rewrite Hparse in H. injection H as <-. simpl.
    now apply replace_removes.
Qed.

Lemma parse_satellite_name_witness :
  exists x y,
    float_of_str "37.78816344751675" = ret x
    /\ float_of_str "-122.40075733242969" = ret y
    /\ parse_filename "satellite_37.78816344751675_-122.40075733242969.png" =
       ret (Some (Info (replace "-" "n"
                          (replace "." "" (repr x ++ "_" ++ repr y)))
                       x y false
                       (snd (splitext
                          "satellite_37.78816344751675_-122.40075733242969.png"))))
    /\ (forall i,
          parse_filename "satellite_37.78816344751675_-122.40075733242969.png"
          = ret (Some i) ->
          contains "." (id i) = false /\ contains "-" (id i) = false).
Proof.
  apply (parse_satellite_name
           "satellite_37.78816344751675_-122.40075733242969.png"
           "37.78816344751675" "-122.40075733242969").
  - reflexivity.
  - exists "", "37", ".", "78816344751675". repeat split; auto; discriminate.
  - exists "-", "122", ".", "40075733242969". repeat split; auto; discriminate.
Defined.

(** The example of the specification: the identifier the script
    builds for that name. *)
Example parse_satellite_name_example :
  parse_filename "satellite_37.78816344751675_-122.40075733242969.png"
  = ret (Some (Info "3778816344751675_n12240075733242969"
                 (S754_finite false 5318211213164120 (-47))
                 (S754_finite true 8613187579878076 (-46)) false ".png")).
Proof. vm_compute. reflexivity. Qed.

(** an integer latitude gets the ".0" of its float before the points
    are removed *)
Example parse_satellite_integers :
  parse_filename "satellite_1_-2.png"
  = ret (Some (Info "10_n20" (S754_finite false 4503599627370496 (-52))
                 (S754_finite true 4503599627370496 (-51)) false ".png")).
Proof. vm_compute. reflexivity. Qed.

(** C9. [float] raises on no text the coordinate group of the two
    patterns accepts; those texts are an optional "-", one or more
    digits, an optional "." and zero or more digits. *)
Theorem float_accepts_pattern_numbers (u : string) :
  atoms_lang number u ->
  is_number u /\ exists x, float_of_str u = ret x.
Proof.
  intros Hu. apply number_lang in Hu.
  split; [exact Hu | now apply float_of_str_number].
Qed.

Lemma float_accepts_pattern_numbers_witness :
  is_number "-122.400728" /\ exists x, float_of_str "-122.400728" = ret x.
Proof.
  apply (float_accepts_pattern_numbers "-122.400728").
  exists "-", "122.400728". split; [reflexivity|].
  split; [right; exists "-"%char; split; reflexivity|].
  exists "122", ".400728". split; [reflexivity|].
  split; [split; [discriminate | reflexivity]|].
  exists ".", "400728". split; [reflexivity|].
  split; [right; exists "."%char; split; reflexivity|].
  exists "400728", "". repeat split; reflexivity.
Defined.

(** C10. No text is matched by both patterns, so [parse_filename]
    returns the same whichever pattern it tries first. *)
Theorem patterns_never_both_match :
  (forall s : string, matches pattern1 s && matches pattern2 s = false)
  /\ (forall filename : string,
        parse_filename filename =
        or_else
          (parse_pattern2 (fst (splitext filename)) (snd (splitext filename)))
          (parse_pattern1 (fst (splitext filename)) (snd (splitext filename)))).
Proof.
  split.
  - intros s. unfold matches.
    destruct (re_match pattern1 s) as [m1|] eqn:E1; [|reflexivity].
    destruct (re_match pattern2 s) as [m2|] eqn:E2; [|reflexivity].
    destruct (patterns_exclusive _ _ _ E1 E2).
  - intros filename. unfold parse_filename.
    set (b := fst (splitext filename)). set (e := snd (splitext filename)).
    destruct (parse_pattern1_cases b e)
      as [[N1 ->] | (ident & la & lo & rest & x & y & S1 & ->)];
    destruct (parse_pattern2_cases b e)
      as [[N2 ->] | (la' & lo' & tail & x' & y' & S2 & ->)];
      try reflexivity.
    destruct (match1_intro _ _ _ _ _ S1) as [w1 E1].
    destruct (match2_intro _ _ _ _ S2) as [w2 E2].
    destruct (patterns_exclusive _ _ _ E1 E2).
Qed.

(** *** [generate_new_filename] *)

Lemma generate_parts (i : info) (ok : bool) :
  exists front c,
    generate_new_filename i ok = (String "_" front ++ String c "") ++ ext i
    /\ c <> "."%char /\ c <> "/"%char
    /\ (contains "," (id i) = false ->
        contains "," (String "_" front ++ String c "") = false).
Proof.
  exists (id i ++ (if is_query i then "_query" else "") ++ "@"
          ++ format_f6 (lat i) ++ "@" ++ format_f6 (lon i) ++ "@"
          ++ (if ok then "succes" else "failur")),
         (if ok then "s" else "e")%char.
  split; [|split; [|split]].
  - unfold generate_new_filename.
    change ("_" ++ ?x) with (String "_" x).
    cbn [String.append]. f_equal.
    rewrite !app_assoc. do 2 f_equal.
    change ("@" ++ ?x) with (String "@" x). cbn [String.append]. f_equal.
    rewrite !app_assoc. f_equal.
    change ("@" ++ ?x) with (String "@" x). cbn [String.append]. f_equal.
    rewrite !app_assoc. f_equal.
    change ("@" ++ ?x) with (String "@" x). cbn [String.append]. f_equal.
    now destruct ok.
  - now destruct ok.
  - now destruct ok.
  - intros Hid.
    repeat (rewrite contains_app || cbn [String.append contains]).
    rewrite Hid.
    rewrite (float_char_no_comma _ (format_f6_chars (lat i))).
    rewrite (float_char_no_comma _ (format_f6_chars (lon i))).
    now destruct (is_query i), ok.
Qed.

(** The base name of a generated name holds no comma and does not start
    with the letter s. *)
Lemma generated_base (i : info) (ok : bool) :
  contains "," (id i) = false ->
  (ext i = "" \/ exists e, ext i = String "." e
                 /\ contains "." e = false /\ contains "/" e = false) ->
  let b := fst (splitext (generate_new_filename i ok)) in
  contains "," b = false /\ (b = "" \/ exists r, b = String "_" r).
Proof.
  intros Hid Hext.
  destruct (generate_parts i ok) as (front & c & -> & Hc1 & Hc2 & Hbody).
  specialize (Hbody Hid).
  destruct Hext as [-> | (e & -> & He1 & He2)].
  - rewrite app_nil_r.
    destruct (splitext_prefix (String "_" front ++ String c "")) as [k Hk].
    cbv zeta. rewrite Hk. split; [now apply contains_take|].
    destruct k; [now left | right]. cbn [String.append str_take]. eauto.
  - rewrite app_assoc. cbn [String.append].
    change (String "_" (front ++ String c (String "." e)))
      with (String "_" front ++ String c (String "." e)).
    rewrite splitext_join by assumption. cbv zeta. cbn [fst].
    split; [exact Hbody | right]. cbn [String.append]. eauto.
Qed.

Lemma reparse_generated (filename : string) (i : info) (ok : bool) :
  parse_filename filename = ret (Some i) ->
  parse_filename (generate_new_filename i ok) = ret None.
Proof.
  intros Hp. apply parse_filename_some in Hp as [Hid Hext].
  assert (ext i = "" \/ exists e, ext i = String "." e
            /\ contains "." e = false /\ contains "/" e = false) as Hshape
    by (rewrite Hext; apply splitext_ext_shape).
  destruct (generated_base i ok Hid Hshape) as [Hc Hs].
  unfold parse_filename.
  rewrite (parse_pattern1_none _ _ (match1_needs_comma _ Hc)).
  cbn [or_else ret]. apply parse_pattern2_none.
  destruct Hs as [-> | (r & ->)]; [apply match2_empty|].
  now apply match2_needs_s.
Qed.

(** C4. The name generated from a record [parse_filename] returned is a
    name [parse_filename] does not recognise: its base name fits neither
    pattern. *)
Theorem generated_name_is_not_parsed (filename : string) (i : info)
    (ok : bool) :
  parse_filename filename = ret (Some i) ->
  parse_filename (generate_new_filename i ok) = ret None.
Proof. apply reparse_generated. Qed.

Lemma generated_name_is_not_parsed_witness :
  parse_filename
    (generate_new_filename
       (Info "abc123" (S754_finite false 5318211994606667 (-47))
          (S754_finite true 8613185515791835 (-46)) true ".jpg") true)
  = ret None.
Proof.
  apply (generated_name_is_not_parsed "abc123,37.788169,-122.400728,.jpg").
  vm_compute. reflexivity.
Defined.

(** C3, amended.  For a record whose coordinates are finite the
    generated name is "_", the identifier, "_query" for a query, "@", the
    latitude, "@", the longitude, "@", the status and the extension,
    where each coordinate is written with exactly six digits after the
    decimal point. *)
Theorem generate_layout (i : info) (ok : bool) :
  is_finite (lat i) = true -> is_finite (lon i) = true ->
  generate_new_filename i ok =
    "_" ++ id i ++ (if is_query i then "_query" else "") ++ "@"
    ++ format_f6 (lat i) ++ "@" ++ format_f6 (lon i) ++ "@"
    ++ (if ok then "success" else "failure") ++ ext i
  /\ fixed6 (format_f6 (lat i)) /\ fixed6 (format_f6 (lon i))
  /\ well_formed_name i ok (generate_new_filename i ok).
Proof.
  intros Hlat Hlon.
  pose proof (format_f6_fixed6 _ Hlat) as F1.
  pose proof (format_f6_fixed6 _ Hlon) as F2.
  repeat split; try assumption.
  exists (format_f6 (lat i)), (format_f6 (lon i)). auto.
Qed.

Lemma generate_layout_witness :
  generate_new_filename
    (Info "abc123" (S754_finite false 5318211994606667 (-47))
       (S754_finite true 8613185515791835 (-46)) true ".jpg") true
  = "_abc123_query@37.788169@-122.400728@success.jpg"
  /\ well_formed_name
       (Info "abc123" (S754_finite false 5318211994606667 (-47))
          (S754_finite true 8613185515791835 (-46)) true ".jpg") true
       "_abc123_query@37.788169@-122.400728@success.jpg".
Proof.
  split; [vm_compute; reflexivity|].
  apply (generate_layout
           (Info "abc123" (S754_finite false 5318211994606667 (-47))
              (S754_finite true 8613185515791835 (-46)) true ".jpg") true);
    reflexivity.
Defined.

(** C3 as written fails for a record [parse_filename] returns for a
    latitude beyond the largest double: the latitude is infinite and is
    written "inf". *)
Lemma generate_layout_counterexample :
  parse_filename huge_latitude_name = ret (Some huge_latitude_info)
  /\ generate_new_filename huge_latitude_info true
     = "_a_query@inf@0.000000@success.jpg"
  /\ ~ well_formed_name huge_latitude_info true
        (generate_new_filename huge_latitude_info true).
Proof.
  split; [vm_compute; reflexivity|]. split; [reflexivity|].
  intros (lat_s & lon_s & Flat & Flon & E).
  cbn in E. injection E as E.
  assert (contains "@" lat_s = false) as Hat.
  { eapply all_not_contains; [|apply fixed6_chars, Flat]. reflexivity. }
  change (String "i" (String "n" (String "f" (String "@" ?r))))
    with ("inf" ++ String "@" r) in E.
  apply split_first_unique in E as [<- _]; [|reflexivity | exact Hat].
  apply fixed6_has_point in Flat. discriminate.
Qed.

(** * The tree walk *)

(** reduce the tests whose outcome is known *)
Ltac simpl_ret := cbv beta iota zeta delta [ret].

Section TreeFacts.
Context {FS : Type} `{FileSystem FS}.
Variables (folder : path) (dry_run : bool) (default_status : string).

Lemma strip_prefix_app (a b : path) : strip_prefix a (a ++ b)%list = Some b.
Proof.
  induction a as [|x a IH]; simpl; [reflexivity|].
  now rewrite String.eqb_refl.
Qed.

Lemma name_joinpath (d : path) (n : string) : name (joinpath d n) = n.
Proof. apply List.last_last. Qed.

Lemma parent_joinpath (d : path) (n : string) : parent (joinpath d n) = d.
Proof. apply List.removelast_last. Qed.

Lemma relative_to_entry (rel : path) (n : string) :
  relative_to (parent (joinpath (folder ++ rel)%list n)) folder = ret rel.
Proof.
  rewrite parent_joinpath. unfold relative_to.
  now rewrite strip_prefix_app.
Qed.

Lemma eligible_is_file (fs : FS) (p : path) :
  eligible fs p = ret true -> fs_is_file fs p = ret true.
Proof.
  unfold eligible, bind, ret. destruct (fs_is_file fs p) as [e|[]];
    [discriminate | reflexivity | discriminate].
Qed.

(** The iteration, test by test. *)
Lemma loop_body_eq (file_path : path) (st : state FS) :
  loop_body folder dry_run default_status file_path st
  = match eligible (st_fs st) file_path with
    | inl e => (st, inl e)
    | inr false => (st, ret tt)
    | inr true =>
        match parse_filename (name file_path) with
        | inl e => (count_total st, inl e)
        | inr None =>
            (count_skipped
               (print [LSkipUnparsed (name file_path)] (count_total st)),
             ret tt)
        | inr (Some i) =>
            let new_filename :=
              generate_new_filename i (String.eqb default_status "success") in
            match collides (st_fs st) file_path
                    (destination file_path i default_status) with
            | inl e => (count_total st, inl e)
            | inr true =>
                (count_skipped
                   (print [LSkipExists (name file_path)] (count_total st)),
                 ret tt)
            | inr false =>
                match relative_to (parent file_path) folder with
                | inl e => (count_total st, inl e)
                | inr rel =>
                    let st1 :=
                      print (describe rel file_path new_filename i)
                        (count_total st) in
                    if dry_run
                    then (count_renamed (print [LPreviewOnly; LBlank] st1),
                          ret tt)
                    else
                      match fs_rename (st_fs st) file_path
                              (destination file_path i default_status) with
                      | inr fs' =>
                          (count_renamed
                             (print [LRenameOk; LBlank] (set_fs fs' st1)),
                           ret tt)
                      | inl e =>
                          (count_skipped
                             (print [LRenameFailed e; LBlank] st1),
                           ret tt)
                      end
                end
            end
        end
    end.
Proof.
  unfold loop_body, act_bind, ask, lift, modify, act_ret, try_except, rename,
    destination.
  destruct (eligible (st_fs st) file_path) as [e|[]]; try reflexivity.
  destruct (parse_filename (name file_path)) as [e|[i|]]; try reflexivity.
  cbn [st_fs count_total].
  destruct (collides (st_fs st) file_path _) as [e|[]]; try reflexivity.
  destruct (relative_to (parent file_path) folder) as [e|rel];
    try reflexivity.
  destruct dry_run; cbn [negb]; try reflexivity.
  cbn [st_fs print count_total].
  destruct (fs_rename (st_fs st) file_path _) as [e|fs']; reflexivity.
Qed.

(** An iteration on an entry of the listing ends in one of the six
    ways, or raises in one of the two. *)
Lemma loop_body_cases (e : path * string) (st : state FS) :
  (exists st',
      loop_body folder dry_run default_status (entry_path folder e) st
      = (st', ret tt)
      /\ step folder dry_run default_status (fst e) (snd e) st st')
  \/ (exists st' err,
         loop_body folder dry_run default_status (entry_path folder e) st
         = (st', inl err)
         /\ abort folder default_status (fst e) (snd e) st st' err).
Proof.
  destruct e as [rel n]. rewrite loop_body_eq. unfold entry_path.
  cbn [fst snd].
  destruct (eligible (st_fs st) (joinpath (folder ++ rel)%list n))
    as [err|[]] eqn:El.
  - right. do 2 eexists. split; [reflexivity|]. now apply abort_is_file.
  - rewrite name_joinpath.
    destruct (parse_filename_returns n) as [[i|] Hp]; rewrite Hp;
      cbv beta iota zeta delta [ret].
    +
      destruct (collides (st_fs st) (joinpath (folder ++ rel)%list n) _)
        as [err|[]] eqn:Hc.
      * right. do 2 eexists. split; [reflexivity|].
        now apply (abort_exists _ _ _ _ _ i).
      * left. eexists. split; [reflexivity|].
        now apply (step_collision _ _ _ _ _ _ i).
      * rewrite relative_to_entry.
        destruct dry_run eqn:Hd.
        -- left. eexists. split; [reflexivity|]. now apply step_preview.
        -- destruct (fs_rename (st_fs st) _ _) as [err|fs'] eqn:Hr.
           ++ left. eexists. split; [reflexivity|]. now apply step_failed.
           ++ left. eexists. split; [reflexivity|]. now apply step_renamed.
    + left. eexists. split; [reflexivity|]. now apply step_unparsed.
  - left. eexists. split; [reflexivity|]. now apply step_ignored.
Qed.

(** A property [P] that every way of ending an iteration preserves
    holds when the loop returns; when the loop raises, what the two ways
    of raising lead to holds, [Q]. *)
Lemma scan_invariant (P : state FS -> Prop) (Q : state FS -> exn -> Prop)
    (entries : list (path * string)) (st st' : state FS)
    (r : result unit) :
  (forall rel n st st',
      step folder dry_run default_status rel n st st' -> P st -> P st') ->
  (forall rel n st st' err,
      abort folder default_status rel n st st' err -> P st -> Q st' err) ->
  P st ->
  scan folder dry_run default_status entries st = (st', r) ->
  match r with
  | inr _ => P st'
  | inl err => Q st' err
  end.
Proof.
  intros Hstep Habort. revert st.
  induction entries as [|e entries IH]; intros st HP.
  - cbn [scan]. unfold act_ret. intros [= <- <-]. exact HP.
  - cbn [scan]. unfold act_bind.
    destruct (loop_body_cases e st) as [(st1 & -> & Hs)|(st1 & err & -> & Ha)].
    + apply IH. eapply Hstep; eassumption.
    + intros [= <- <-]. eapply Habort; eassumption.
Qed.

(** what holds before the loop and is preserved by every iteration,
    ending or raising, holds in the state the loop leaves *)
Lemma scan_always (P : state FS -> Prop)
    (entries : list (path * string)) (st st' : state FS)
    (r : result unit) :
  (forall rel n st st',
      step folder dry_run default_status rel n st st' -> P st -> P st') ->
  (forall rel n st st' err,
      abort folder default_status rel n st st' err -> P st -> P st') ->
  P st ->
  scan folder dry_run default_status entries st = (st', r) ->
  P st'.
Proof.
  intros Hstep Habort HP Hscan.
  pose proof (scan_invariant P (fun s _ => P s) entries st st' r Hstep Habort
                HP Hscan).
  now destruct r.
Qed.

Lemma scan_returned (P : state FS -> Prop)
    (entries : list (path * string)) (st st' : state FS) :
  (forall rel n st st',
      step folder dry_run default_status rel n st st' -> P st -> P st') ->
  P st ->
  scan folder dry_run default_status entries st = (st', ret tt) ->
  P st'.
Proof.
  intros Hstep HP Hscan.
  exact (scan_invariant P (fun _ _ => True) entries st st' (ret tt) Hstep
           (fun _ _ _ _ _ _ _ => I) HP Hscan).
Qed.

(** The run, test by test. *)
Lemma rename_images_in_folder_eq (fs : FS) (out : list line) :
  rename_images_in_folder folder dry_run default_status fs out
  = match fs_exists fs folder with
    | inl e => (State fs out (Stats 0 0 0), inl e)
    | inr false =>
        (print [LNoFolder folder] (State fs out (Stats 0 0 0)), ret tt)
    | inr true =>
        match scan folder dry_run default_status (fst (fs_rglob fs folder))
                (print (header folder dry_run) (State fs out (Stats 0 0 0)))
        with
        | (st, inl e) => (st, inl e)
        | (st, inr _) =>
            match snd (fs_rglob fs folder) with
            | Some e => (st, inl e)
            | None => (print (summary dry_run (st_count st)) st, ret tt)
            end
        end
    end.
Proof.
  unfold rename_images_in_folder, act_bind, ask, modify. cbn [st_fs].
  destruct (fs_exists fs folder) as [e|[]]; try reflexivity.
  cbn [negb].
  destruct (scan folder dry_run default_status _ _) as [st [e|[]]];
    try reflexivity.
  unfold end_of_listing. now destruct (snd (fs_rglob fs folder)).
Qed.



Lemma step_dry_fs rel n (st st' : state FS) :
  dry_run = true ->
  step folder dry_run default_status rel n st st' -> st_fs st' = st_fs st.
Proof.
  intros Hd Hs. inversion Hs; subst; cbn; congruence.
Qed.

Lemma abort_fs rel n (st st' : state FS) (err : exn) :
  abort folder default_status rel n st st' err -> st_fs st' = st_fs st.
Proof. intros Ha. now inversion Ha. Qed.

(** the exception an iteration raises is one a test of the file system
    raised *)
Lemma abort_origin rel n (st st' : state FS) (err : exn) :
  abort folder default_status rel n st st' err ->
  exists fs p, fs_is_file fs p = inl err \/ fs_exists fs p = inl err.
Proof.
  intros Ha. inversion Ha; subst.
  - match goal with
    | E : eligible ?fs ?p = inl err |- _ =>
        exists fs, p; left; unfold eligible, bind in E;
        destruct (fs_is_file fs p); [congruence | discriminate]
    end.
  - match goal with
    | E : collides ?fs _ ?p = inl err |- _ =>
        exists fs, p; right; unfold collides, bind in E;
        destruct (fs_exists fs p); [congruence | discriminate]
    end.
Qed.

End TreeFacts.

Section TreeClaims.
Context {FS : Type} `{FileSystem FS}.




Lemma step_preview_count (folder : path) (default_status : string)
    (rel : path) (n : string) (st st' : state FS) :
  step folder true default_status rel n st st' ->
  renamed_files (st_count st')
  = (renamed_files (st_count st)
     + if would_rename (st_fs st) default_status
            (joinpath (folder ++ rel)%list n)
       then 1 else 0)%nat.
Proof.
  intros Hs. unfold would_rename, is_image. rewrite name_joinpath.
  inversion Hs; subst;
    repeat (match goal with
            | x := _ |- _ => subst x
            | E : eligible _ _ = _ |- _ => rewrite E
            | E : parse_filename _ = _ |- _ => rewrite E
            | E : collides _ _ _ = _ |- _ => rewrite E
            end; cbn [ret andb negb]);
    cbn; try lia; discriminate.
Qed.

(** in preview mode the loop leaves the file system as it is, also
    when it raises, and when it returns it has counted the files that
    pass the three checks *)
Lemma scan_preview (folder : path) (default_status : string)
    (entries : list (path * string)) (st st' : state FS) (r : result unit) :
  scan folder true default_status entries st = (st', r) ->
  st_fs st' = st_fs st
  /\ (r = ret tt ->
      renamed_files (st_count st')
      = (renamed_files (st_count st)
         + length (List.filter (would_rename (st_fs st) default_status)
                     (map (entry_path folder) entries)))%nat).
Proof.
  revert st. induction entries as [|e entries IH]; intros st.
  - cbn [scan]. unfold act_ret. intros [= <- <-]. cbn. split; [reflexivity|].
    intros _. lia.
  - cbn [scan]. unfold act_bind.
    destruct (loop_body_cases folder true default_status e st)
      as [(st1 & -> & Hs)|(st1 & err & -> & Ha)].
    + intros Hscan. destruct (IH _ Hscan) as [Hfs Hn].
      pose proof (step_dry_fs _ _ _ _ _ _ _ eq_refl Hs) as Hfs1.
      split; [congruence|]. intros Hr.
      rewrite (Hn Hr), Hfs1, (step_preview_count _ _ _ _ _ _ Hs).
      cbn [map List.filter]. unfold entry_path at 2.
      destruct (would_rename (st_fs st) default_status _); cbn [length]; lia.
    + intros [= <- <-]. split; [|discriminate].
      exact (abort_fs _ _ _ _ _ _ _ Ha).
Qed.

(** C7. In preview mode the run leaves the file system as it found
    it, whether it returns or a test of the file system ends it with
    an exception; and when it returns, the renamed counter is the
    number of listed entries that are image files, are parsed and do
    not collide. *)
Theorem preview_changes_nothing (folder : path) (default_status : string)
    (fs : FS) (out : list line) (st : state FS) (r : result unit) :
  rename_images_in_folder folder true default_status fs out = (st, r) ->
  st_fs st = fs
  /\ (r = ret tt ->
      renamed_files (st_count st)
      = match fs_exists fs folder with
        | inr true =>
            length (List.filter (would_rename fs default_status)
                      (map (entry_path folder) (fst (fs_rglob fs folder))))
        | _ => 0%nat
        end).
Proof.
  rewrite rename_images_in_folder_eq.
  destruct (fs_exists fs folder) as [err|[]].
  - intros [= <- <-]. split; [reflexivity | discriminate].
  - destruct (scan folder true default_status _ _) as [st1 r1] eqn:Hscan.
    apply scan_preview in Hscan as [Hfs Hn]. cbn [st_fs print] in Hfs, Hn.
    destruct r1 as [err|[]].
    + intros [= <- <-]. split; [exact Hfs | discriminate].
    + destruct (snd (fs_rglob fs folder)).
      * intros [= <- <-]. split; [exact Hfs | discriminate].
      * intros [= <- <-]. split; [exact Hfs|]. intros _.
        cbn [st_count print]. now rewrite Hn.
  - intros [= <- <-]. split; [reflexivity|]. intros _. reflexivity.
Qed.

(** C8, amended.  In execute mode a rename that raises is caught: the
    error is printed, the file is counted as skipped, the file system
    is as it was, and the loop goes on with the next entry.  No run
    raises what a rename raised: the exception a run in execute mode
    ends with was raised by the existence test of the folder, by the
    file test or the existence test of an entry, or by the listing.
    Without the folder the run prints one line and returns. *)
Theorem rename_failure_is_contained (folder : path)
    (default_status : string) (st : state FS) (rel : path) (n : string)
    (rest : list (path * string)) (i : info) (e : exn) :
  let file_path := joinpath (folder ++ rel)%list n in
  let new_filename :=
    generate_new_filename i (String.eqb default_status "success") in
  eligible (st_fs st) file_path = ret true ->
  parse_filename n = ret (Some i) ->
  collides (st_fs st) file_path (destination file_path i default_status)
    = ret false ->
  fs_rename (st_fs st) file_path (destination file_path i default_status)
    = inl e ->
  (exists st',
      loop_body folder false default_status file_path st = (st', ret tt)
      /\ st_fs st' = st_fs st
      /\ st_out st'
         = (st_out st ++ describe rel file_path new_filename i
            ++ [LRenameFailed e; LBlank])%list
      /\ st_count st'
         = Stats (total_files (st_count st) + 1)
             (renamed_files (st_count st))
             (skipped_files (st_count st) + 1)
      /\ scan folder false default_status ((rel, n) :: rest) st
         = scan folder false default_status rest st')
  /\ (forall (fs : FS) (out : list line) (final : state FS) (err : exn),
        rename_images_in_folder folder false default_status fs out
        = (final, inl err) ->
        snd (fs_rglob fs folder) = Some err
        \/ exists fs' p,
             fs_is_file fs' p = inl err \/ fs_exists fs' p = inl err)
  /\ (forall (fs : FS) (out : list line),
        fs_exists fs folder = ret false ->
        rename_images_in_folder folder false default_status fs out
        = (State fs (out ++ [LNoFolder folder]) (Stats 0 0 0), ret tt)).
Proof.
  intros file_path new_filename El Hp Hc Hr. split; [|split].
  - assert (loop_body folder false default_status file_path st
            = (count_skipped
                 (print [LRenameFailed e; LBlank]
                    (print (describe rel file_path new_filename i)
                       (count_total st))), ret tt)) as Hl.
    { rewrite loop_body_eq, El. unfold file_path at 1.
      rewrite name_joinpath, Hp. simpl_ret. rewrite Hc. simpl_ret.
      unfold file_path at 1. rewrite relative_to_entry. simpl_ret.
      now rewrite Hr. }
    eexists. split; [exact Hl|].
    split; [reflexivity|]. split; [cbn; now rewrite <- List.app_assoc|].
    split; [reflexivity|].
    cbn [scan]. unfold act_bind, entry_path. cbn [fst snd]. fold file_path.
    now rewrite Hl.
  - intros fs out final err. rewrite rename_images_in_folder_eq.
    destruct (fs_exists fs folder) as [err0|[]] eqn:Hex.
    + intros [= <- <-]. right. exists fs, folder. now right.
    + destruct (scan folder false default_status _ _) as [st1 [err1|[]]]
        eqn:Hscan.
      * intros [= <- <-]. right.
        exact (scan_invariant folder false default_status (fun _ => True)
                 (fun _ err' => exists fs' p,
                      fs_is_file fs' p = inl err'
                      \/ fs_exists fs' p = inl err')
                 _ _ _ (inl err1)
                 (fun _ _ _ _ _ _ => I)
                 (fun rel' n' s s' err' Ha _ =>
                    abort_origin folder default_status rel' n' s s' err' Ha)
                 I Hscan).
      * destruct (snd (fs_rglob fs folder)) as [err1|]; [|discriminate].
        intros [= <- <-]. now left.
    + discriminate.
  - intros fs out Hex. now rewrite rename_images_in_folder_eq, Hex.
Qed.

End TreeClaims.

Section Collisions.
Context {FS : Type} `{FileSystemLaws FS}.
Variables (folder : path) (default_status : string).

Lemma loop_body_collision (dry_run : bool) (st : state FS) (rel : path)
    (n : string) (i : info) :
  let file_path := joinpath (folder ++ rel)%list n in
  eligible (st_fs st) file_path = ret true ->
  parse_filename n = ret (Some i) ->
  collides (st_fs st) file_path (destination file_path i default_status)
    = ret true ->
  loop_body folder dry_run default_status file_path st
  = (count_skipped (print [LSkipExists n] (count_total st)), ret tt).
Proof.
  intros file_path El Hp Hc. rewrite loop_body_eq, El.
  unfold file_path at 1. rewrite name_joinpath, Hp. simpl_ret.
  rewrite Hc. simpl_ret. unfold file_path. now rewrite name_joinpath.
Qed.

(** the state an iteration leaves when the rename returned *)
Lemma loop_body_renamed (st st1 : state FS) (rel : path) (n : string)
    (i : info) (fs1 : FS) :
  let file_path := joinpath (folder ++ rel)%list n in
  eligible (st_fs st) file_path = ret true ->
  parse_filename n = ret (Some i) ->
  collides (st_fs st) file_path (destination file_path i default_status)
    = ret false ->
  fs_rename (st_fs st) file_path (destination file_path i default_status)
    = inr fs1 ->
  loop_body folder false default_status file_path st = (st1, ret tt) ->
  st1 = count_renamed
          (print [LRenameOk; LBlank]
             (set_fs fs1
                (print (describe rel file_path
                          (generate_new_filename i
                             (String.eqb default_status "success")) i)
                   (count_total st)))).
Proof.
  intros file_path El Hp Hc Hr. rewrite loop_body_eq, El.
  unfold file_path at 1. rewrite name_joinpath, Hp. simpl_ret.
  rewrite Hc. simpl_ret. unfold file_path at 1.
  rewrite relative_to_entry. simpl_ret.
  rewrite Hr. now intros [= <-].
Qed.

(** a path whose name is not parsed is never the source of a rename,
    so once it exists it exists until the loop ends *)
Lemma step_keeps_unparsed (d : path) rel n (st st' : state FS) :
  parse_filename (name d) = ret None ->
  step folder false default_status rel n st st' ->
  fs_exists (st_fs st) d = ret true -> fs_exists (st_fs st') d = ret true.
Proof.
  intros Hd Hs Hex. inversion Hs; subst; cbn; try assumption.
  match goal with
  | R : fs_rename _ ?src ?dst = inr _, E : eligible _ _ = ret true |- _ =>
      apply eligible_is_file in E;
      destruct (decide (d = dst)) as [-> | Hne];
      [ exact (rename_creates _ _ _ _ E R)
      | rewrite (rename_frame _ _ _ _ d E R); [assumption | | assumption] ]
  end.
  intros ->. subst file_path. rewrite name_joinpath in Hd.
  unfold ret in *. congruence.
Qed.

Lemma abort_keeps (d : path) rel n (st st' : state FS) (err : exn) :
  abort folder default_status rel n st st' err ->
  fs_exists (st_fs st) d = ret true -> fs_exists (st_fs st') d = ret true.
Proof.
  intros Ha. now rewrite (abort_fs _ _ _ _ _ _ _ Ha).
Qed.

(** C6, amended.  An image file whose destination exists, at another
    path than its own, is counted as skipped and not renamed, in
    preview and in execute mode.  In execute mode, once a file was
    renamed to a destination, a later file with the same destination
    is skipped. *)
Theorem existing_destination_is_skipped :
  (forall (dry_run : bool) (st : state FS) (rel : path) (n : string)
          (i : info),
      let file_path := joinpath (folder ++ rel)%list n in
      eligible (st_fs st) file_path = ret true ->
      parse_filename n = ret (Some i) ->
      collides (st_fs st) file_path (destination file_path i default_status)
        = ret true ->
      exists st',
        loop_body folder dry_run default_status file_path st = (st', ret tt)
        /\ st_fs st' = st_fs st
        /\ st_out st' = (st_out st ++ [LSkipExists n])%list
        /\ st_count st'
           = Stats (total_files (st_count st) + 1)
               (renamed_files (st_count st))
               (skipped_files (st_count st) + 1))
  /\ (forall (st0 st1 st2 : state FS) (rel1 rel2 : path) (n1 n2 : string)
             (i1 i2 : info) (fs1 : FS) (between : list (path * string)),
        let first := joinpath (folder ++ rel1)%list n1 in
        let second := joinpath (folder ++ rel2)%list n2 in
        eligible (st_fs st0) first = ret true ->
        parse_filename n1 = ret (Some i1) ->
        collides (st_fs st0) first (destination first i1 default_status)
          = ret false ->
        fs_rename (st_fs st0) first (destination first i1 default_status)
          = inr fs1 ->
        loop_body folder false default_status first st0 = (st1, ret tt) ->
        scan folder false default_status between st1 = (st2, ret tt) ->
        eligible (st_fs st2) second = ret true ->
        parse_filename n2 = ret (Some i2) ->
        destination second i2 default_status
          = destination first i1 default_status ->
        st_fs st1 = fs1
        /\ renamed_files (st_count st1)
           = (renamed_files (st_count st0) + 1)%nat
        /\ loop_body folder false default_status second st2
           = (count_skipped (print [LSkipExists n2] (count_total st2)),
              ret tt)).
Proof.
  split.
  - intros dry_run st rel n i file_path El Hp Hc.
    eexists. split; [now apply loop_body_collision with (i := i)|].
    repeat split.
  - intros st0 st1 st2 rel1 rel2 n1 n2 i1 i2 fs1 between first second
      El1 Hp1 Hc1 Hr1 Hl1 Hscan El2 Hp2 Hdest.
    set (d := destination first i1 default_status) in *.
    assert (parse_filename (name d) = ret None) as Hd.
    { unfold d, destination. rewrite name_joinpath.
      exact (reparse_generated n1 i1 _ Hp1). }
    pose proof (loop_body_renamed st0 st1 rel1 n1 i1 fs1 El1 Hp1 Hc1 Hr1 Hl1)
      as ->.
    split; [reflexivity|]. split; [reflexivity|].
    assert (fs_exists (st_fs st2) d = ret true) as Hex.
    { apply (scan_returned folder false default_status
               (fun st => fs_exists (st_fs st) d = ret true) between _ st2)
        in Hscan; [exact Hscan | |].
      - intros rel n st st' Hstep.
        now apply (step_keeps_unparsed d rel n).
      - cbn. apply eligible_is_file in El1.
        exact (rename_creates _ _ _ _ El1 Hr1). }
    apply loop_body_collision with (i := i2); try assumption.
    fold second. rewrite Hdest. fold d. unfold collides. rewrite Hex.
    cbn [bind ret andb]. f_equal.
    apply bool_decide_eq_true. intros E.
    rewrite E in Hd. unfold second in Hd. rewrite name_joinpath in Hd.
    unfold ret in *. congruence.
Qed.

End Collisions.

(** the file system in memory obeys the two laws *)
#[global] Instance memfs_laws : FileSystemLaws MemFS.t.
Proof.
  split.
  - intros fs fs' src dst _. cbn.
    unfold MemFS.rename, MemFS.exists_, MemFS.stat.
    destruct (MemFS.too_long src); [discriminate|].
    destruct (MemFS.too_long dst); [discriminate|]. cbn [orb].
    destruct (MemFS.nodes fs !! src) as [[]|]; try discriminate.
    destruct (bool_decide _); [discriminate|].
    destruct (MemFS.nodes fs !! dst) as [[]|]; try discriminate;
      intros [= <-]; cbn; now rewrite lookup_insert_eq.
  - intros fs fs' src dst p _. cbn.
    unfold MemFS.rename, MemFS.exists_, MemFS.stat.
    destruct (MemFS.too_long src || MemFS.too_long dst); [discriminate|].
    destruct (MemFS.nodes fs !! src) as [[]|]; try discriminate.
    destruct (bool_decide _); [discriminate|].
    destruct (MemFS.nodes fs !! dst) as [[]|]; try discriminate;
      intros [= <-] Hs Hd; destruct (MemFS.too_long p); try reflexivity;
      cbn;
      rewrite lookup_insert_ne, lookup_delete_ne by congruence; reflexivity.
Qed.

(** ** The claims on concrete trees *)


(** The tree of the specification's scenarios, with one more query
    image that collides: four image files, of which execute mode renames
    two and skips two. *)
Example demo_execute_counts :
  snd (report (rename_images_in_folder ["demo-img"] false "success" demo []))
  = ret tt
  /\ snd (fst (report (rename_images_in_folder ["demo-img"] false "success"
                         demo [])))
     = Stats 4 2 2.
Proof. split; vm_compute; reflexivity. Qed.

Example demo_preview_counts :
  snd (report (rename_images_in_folder ["demo-img"] true "success" demo []))
  = ret tt
  /\ snd (fst (report (rename_images_in_folder ["demo-img"] true "success"
                         demo [])))
     = Stats 4 3 1.
Proof. split; vm_compute; reflexivity. Qed.

Lemma existing_destination_is_skipped_witness :
  (exists st',
      loop_body ["demo-img"] false "success"
        ["demo-img"; "abc123,37.788169,-122.400728,a.jpg"] twins_after_first
      = (st', ret tt)
      /\ st_fs st' = st_fs twins_after_first
      /\ st_out st'
         = (st_out twins_after_first
            ++ [LSkipExists "abc123,37.788169,-122.400728,a.jpg"])%list
      /\ st_count st' = Stats 2 1 1)
  /\ (st_fs twins_after_first = st_fs twins_after_first
      /\ renamed_files (st_count twins_after_first) = 1%nat
      /\ loop_body ["demo-img"] false "success"
           ["demo-img"; "abc123,37.788169,-122.400728,a.jpg"]
           twins_after_first
         = (count_skipped
              (print [LSkipExists "abc123,37.788169,-122.400728,a.jpg"]
                 (count_total twins_after_first)), ret tt)).
Proof.
  destruct (existing_destination_is_skipped (FS := MemFS.t)
              ["demo-img"] "success") as [Hskip Hsecond].
  split.
  - apply (Hskip false twins_after_first []
             "abc123,37.788169,-122.400728,a.jpg" twin_info);
      vm_compute; reflexivity.
  - apply (Hsecond (State twins [] (Stats 0 0 0)) twins_after_first
             twins_after_first [] []
             "abc123,37.788169,-122.400728,b.jpg"
             "abc123,37.788169,-122.400728,a.jpg"
             twin_info twin_info (st_fs twins_after_first) []);
      vm_compute; reflexivity.
Defined.

(** C6 as written fails in preview mode: nothing was renamed when the
    second of two files with one destination is looked at, the
    destination is still free, and both files are counted as renamed. *)
Lemma preview_collision_counterexample :
  parse_filename "abc123,37.788169,-122.400728,b.jpg" = ret (Some twin_info)
  /\ parse_filename "abc123,37.788169,-122.400728,a.jpg" = ret (Some twin_info)
  /\ report (rename_images_in_folder ["demo-img"] true "success" twins [])
     = ([LRule; LScanning ["demo-img"]; LMode true; LRule; LBlank;
         LSubdir []; LOldName "abc123,37.788169,-122.400728,b.jpg";
         LNewName "_abc123_query@37.788169@-122.400728@success.jpg";
         LCoords "37.788169" "-122.400728"; LKind true; LPreviewOnly;
         LBlank;
         LSubdir []; LOldName "abc123,37.788169,-122.400728,a.jpg";
         LNewName "_abc123_query@37.788169@-122.400728@success.jpg";
         LCoords "37.788169" "-122.400728"; LKind true; LPreviewOnly;
         LBlank;
         LRule; LDone; LTotal 2; LRenamed true 2; LSkipped 0; LRule;
         LBlank; LHint],
        Stats 2 2 0, ret tt).
Proof.
  split; [vm_compute; reflexivity|].
  split; vm_compute; reflexivity.
Qed.

(** in execute mode the second of the two is skipped *)
Example execute_collision :
  report (rename_images_in_folder ["demo-img"] false "success" twins [])
  = ([LRule; LScanning ["demo-img"]; LMode false; LRule; LBlank;
      LSubdir []; LOldName "abc123,37.788169,-122.400728,b.jpg";
      LNewName "_abc123_query@37.788169@-122.400728@success.jpg";
      LCoords "37.788169" "-122.400728"; LKind true; LRenameOk; LBlank;
      LSkipExists "abc123,37.788169,-122.400728,a.jpg";
      LRule; LDone; LTotal 2; LRenamed false 1; LSkipped 1; LRule],
     Stats 2 1 1, ret tt).
Proof. vm_compute. reflexivity. Qed.

Lemma preview_changes_nothing_witness :
  st_fs twins_previewed = twins
  /\ (ret tt = ret tt ->
      renamed_files (st_count twins_previewed)
      = match fs_exists twins ["demo-img"] with
        | inr true =>
            length (List.filter (would_rename twins "success")
                      (map (entry_path ["demo-img"])
                         (fst (fs_rglob twins ["demo-img"]))))
        | _ => 0%nat
        end).
Proof.
  apply (preview_changes_nothing (FS := MemFS.t) ["demo-img"] "success"
           twins [] twins_previewed (ret tt)).
  vm_compute. reflexivity.
Defined.

(** preview mode on the tree with the long name: the existence test of
    the destination raises, and the file system is as it was *)
Example preview_aborted :
  snd (rename_images_in_folder ["demo-img"] true "success" long_names [])
  = inl (OSError "File name too long").
Proof. vm_compute. reflexivity. Qed.

Lemma rename_failure_is_contained_witness :
  let folder := ["demo-img"] in
  let n := "abc123,37.788169,-122.400728,b.jpg" in
  let rest := [([], "abc123,37.788169,-122.400728,a.jpg")] in
  let st := State twins_locked [] (Stats 0 0 0) in
  let e := OSError "Permission denied" in
  let file_path := joinpath (folder ++ [])%list n in
  let new_filename := generate_new_filename twin_info true in
  (exists st',
      loop_body folder false "success" file_path st = (st', ret tt)
      /\ st_fs st' = st_fs st
      /\ st_out st'
         = (st_out st ++ describe [] file_path new_filename twin_info
            ++ [LRenameFailed e; LBlank])%list
      /\ st_count st' = Stats 1 0 1
      /\ scan folder false "success" (([], n) :: rest) st
         = scan folder false "success" rest st')
  /\ (forall (fs : MemFS.t) (out : list line) (final : state MemFS.t)
             (err : exn),
        rename_images_in_folder folder false "success" fs out
        = (final, inl err) ->
        snd (fs_rglob fs folder) = Some err
        \/ exists fs' p,
             fs_is_file fs' p = inl err \/ fs_exists fs' p = inl err)
  /\ (forall (fs : MemFS.t) (out : list line),
        fs_exists fs folder = ret false ->
        rename_images_in_folder folder false "success" fs out
        = (State fs (out ++ [LNoFolder folder]) (Stats 0 0 0), ret tt)).
Proof.
  apply (rename_failure_is_contained (FS := MemFS.t) ["demo-img"] "success"
           (State twins_locked [] (Stats 0 0 0)) []
           "abc123,37.788169,-122.400728,b.jpg"
           [([], "abc123,37.788169,-122.400728,a.jpg")]
           twin_info (OSError "Permission denied"));
    vm_compute; reflexivity.
Defined.

(** C8 as written fails: the folder exists and no rename fails, and
    the run still ends with an exception.  The name generated for the
    one image file of [long_names] is too long for a directory entry;
    the existence test of line 116 raises on it, outside the [try], in
    execute mode as in preview mode, and the run ends there, with the
    file counted and no summary printed. *)
Lemma check_failure_counterexample :
  fs_exists long_names ["demo-img"] = ret true
  /\ fst (fs_rglob long_names ["demo-img"]) = [([], long_name)]
  /\ eligible long_names ["demo-img"; long_name] = ret true
  /\ report (rename_images_in_folder ["demo-img"] false "success"
               long_names [])
     = (header ["demo-img"] false, Stats 1 0 0,
        inl (OSError "File name too long"))
  /\ report (rename_images_in_folder ["demo-img"] true "success"
               long_names [])
     = (header ["demo-img"] true, Stats 1 0 0,
        inl (OSError "File name too long")).
Proof.
  split; [vm_compute; reflexivity|].
  split; [vm_compute; reflexivity|].
  split; [vm_compute; reflexivity|].
  split; vm_compute; reflexivity.
Qed.

(** both renames are refused, both files are skipped, the run ends with
    its summary *)
Example locked_directory :
  report (rename_images_in_folder ["demo-img"] false "success" twins_locked [])
  = ([LRule; LScanning ["demo-img"]; LMode false; LRule; LBlank;
      LSubdir []; LOldName "abc123,37.788169,-122.400728,b.jpg";
      LNewName "_abc123_query@37.788169@-122.400728@success.jpg";
      LCoords "37.788169" "-122.400728"; LKind true;
      LRenameFailed (OSError "Permission denied"); LBlank;
      LSubdir []; LOldName "abc123,37.788169,-122.400728,a.jpg";
      LNewName "_abc123_query@37.788169@-122.400728@success.jpg";
      LCoords "37.788169" "-122.400728"; LKind true;
      LRenameFailed (OSError "Permission denied"); LBlank;
      LRule; LDone; LTotal 2; LRenamed false 0; LSkipped 2; LRule],
     Stats 2 0 2, ret tt).
Proof. vm_compute. reflexivity. Qed.

(** without the folder the run prints one line and returns *)
Example missing_folder :
  report (rename_images_in_folder ["nowhere"] false "success" twins [])
  = ([LNoFolder ["nowhere"]], Stats 0 0 0, ret tt).
Proof. vm_compute. reflexivity. Qed.


(** * More about the parser *)

Lemma parse_origin (filename : string) (i : info) :
  parse_filename filename = ret (Some i) ->
  (exists ident la lo rest x y,
      shape1 (fst (splitext filename)) ident la lo rest
      /\ float_of_str la = ret x /\ float_of_str lo = ret y
      /\ i = Info ident x y true (snd (splitext filename)))
  \/ (exists la lo tail x y,
        shape2 (fst (splitext filename)) la lo tail
        /\ float_of_str la = ret x /\ float_of_str lo = ret y
        /\ i = Info (replace "-" "n"
                       (replace "." "" (repr x ++ "_" ++ repr y)))
                    x y false (snd (splitext filename))).
Proof.
  unfold parse_filename.
  set (b := fst (splitext filename)). set (e := snd (splitext filename)).
  destruct (re_match pattern1 b) as [m1|] eqn:E1.
  - apply match1_inv in E1 as (ident & la & lo & rest & w & Hs & _).
    destruct (parse_pattern1_some b e _ _ _ _ Hs) as (x & y & Hx & Hy & ->).
    cbn [or_else ret]. intros [= <-]. left.
    now exists ident, la, lo, rest, x, y.
  - rewrite (parse_pattern1_none b e E1). cbn [or_else ret].
    destruct (re_match pattern2 b) as [m2|] eqn:E2.
    + apply match2_inv in E2 as (la & lo & tail & w & Hs & _).
      destruct (parse_pattern2_some b e _ _ _ Hs) as (x & y & Hx & Hy & ->).
      intros [= <-]. right. now exists la, lo, tail, x, y.
    + rewrite (parse_pattern2_none b e E2). discriminate.
Qed.

(** X1. A record comes from a full match only: when [parse_filename]
    returns a record, the base name has the shape of the first pattern
    and the record is the query record of its three fields, or it has
    the shape of the second pattern and the record is the reference
    record of its two coordinates. *)
Theorem parsed_record_origin (filename : string) (i : info) :
  parse_filename filename = ret (Some i) ->
  (exists ident la lo rest x y,
      shape1 (fst (splitext filename)) ident la lo rest
      /\ float_of_str la = ret x /\ float_of_str lo = ret y
      /\ i = Info ident x y true (snd (splitext filename)))
  \/ (exists la lo tail x y,
        shape2 (fst (splitext filename)) la lo tail
        /\ float_of_str la = ret x /\ float_of_str lo = ret y
        /\ i = Info (replace "-" "n"
                       (replace "." "" (repr x ++ "_" ++ repr y)))
                    x y false (snd (splitext filename))).
Proof. apply parse_origin. Qed.

Lemma parsed_record_origin_witness :
  (exists ident la lo rest x y,
      shape1 (fst (splitext "abc123,37.788169,-122.400728,.jpg"))
        ident la lo rest
      /\ float_of_str la = ret x /\ float_of_str lo = ret y
      /\ twin_info
         = Info ident x y true
             (snd (splitext "abc123,37.788169,-122.400728,.jpg")))
  \/ (exists la lo tail x y,
        shape2 (fst (splitext "abc123,37.788169,-122.400728,.jpg"))
          la lo tail
        /\ float_of_str la = ret x /\ float_of_str lo = ret y
        /\ twin_info
           = Info (replace "-" "n"
                     (replace "." "" (repr x ++ "_" ++ repr y)))
                  x y false
                  (snd (splitext "abc123,37.788169,-122.400728,.jpg"))).
Proof.
  apply (parsed_record_origin "abc123,37.788169,-122.400728,.jpg" twin_info).
  vm_compute. reflexivity.
Defined.

(** X2. A name whose base name holds no comma and does not begin with
    "satellite_" is not recognised: [parse_filename] returns [None]. *)
Theorem unrecognised_name (filename : string) :
  contains "," (fst (splitext filename)) = false ->
  str_take 10 (fst (splitext filename)) <> "satellite_" ->
  parse_filename filename = ret None.
Proof.
  intros Hc Hs. unfold parse_filename.
  rewrite (parse_pattern1_none _ _ (match1_needs_comma _ Hc)).
  cbn [or_else ret]. apply parse_pattern2_none.
  destruct (re_match pattern2 _) as [m|] eqn:E; [|reflexivity].
  apply match2_inv in E as (la & lo & tail & w & (Hb & _) & _).
  destruct Hs. rewrite Hb.
  exact (take_app "satellite_" (la ++ "_" ++ lo ++ tail)).
Qed.

Lemma unrecognised_name_witness : parse_filename "photo001.jpg" = ret None.
Proof.
  apply (unrecognised_name "photo001.jpg").
  - reflexivity.
  - discriminate.
Defined.

(** X3. The second pattern ends in "$", which also matches before a
    line feed that ends the text: a base name "satellite_", a
    coordinate, "_", a coordinate and one final line feed is parsed to
    the same reference record as without the line feed. *)
Theorem satellite_name_with_line_feed (filename la lo : string) :
  fst (splitext filename) = "satellite_" ++ la ++ "_" ++ lo ++ String "010" "" ->
  is_number la -> is_number lo ->
  exists x y,
    float_of_str la = ret x /\ float_of_str lo = ret y
    /\ parse_filename filename =
       ret (Some (Info (replace "-" "n"
                          (replace "." "" (repr x ++ "_" ++ repr y)))
                       x y false (snd (splitext filename)))).
Proof.
  intros Hb Hla Hlo.
  assert (shape2 (fst (splitext filename)) la lo (String "010" "")) as Hs
    by (repeat split; assumption).
  destruct (parse_pattern2_some _ (snd (splitext filename)) _ _ _ Hs)
    as (x & y & Hx & Hy & Hp).
  exists x, y. split; [exact Hx|]. split; [exact Hy|].
  unfold parse_filename.
  destruct (re_match pattern1 (fst (splitext filename))) as [m1|] eqn:E1.
  - destruct (match2_intro _ _ _ _ Hs) as [w E2].
    destruct (patterns_exclusive _ _ _ E1 E2).
  - now rewrite (parse_pattern1_none _ _ E1), Hp.
Qed.

Lemma satellite_name_with_line_feed_witness :
  exists x y,
    float_of_str "1" = ret x /\ float_of_str "-2" = ret y
    /\ parse_filename ("satellite_1_-2" ++ String "010" ".png") =
       ret (Some (Info (replace "-" "n"
                          (replace "." "" (repr x ++ "_" ++ repr y)))
                       x y false
                       (snd (splitext
                               ("satellite_1_-2" ++ String "010" ".png"))))).
Proof.
  apply (satellite_name_with_line_feed
           ("satellite_1_-2" ++ String "010" ".png") "1" "-2").
  - reflexivity.
  - exists "", "1", "", "". repeat split; auto; discriminate.
  - exists "-", "2", "", "". repeat split; auto; discriminate.
Defined.

(** X4. [parse_filename] raises on no file name: whatever the name, the
    two calls of [float] are given texts that [float] accepts. *)
Theorem parse_filename_never_raises (filename : string) :
  exists r : option info, parse_filename filename = ret r.
Proof. apply parse_filename_returns. Qed.

Lemma replace_keeps (c old : ascii) (new s : string) :
  c <> old -> contains c s = true -> contains c (replace old new s) = true.
Proof.
  intros Hne. induction s as [|x s IH]; simpl; [discriminate|].
  destruct (Ascii.eqb_spec x c) as [->|Hx]; simpl.
  - intros _. destruct (Ascii.eqb_spec c old); [contradiction|].
    simpl. now rewrite Ascii.eqb_refl.
  - intros Hs. destruct (Ascii.eqb x old); simpl.
    + rewrite contains_app, (IH Hs). apply orb_true_r.
    + rewrite (IH Hs). apply orb_true_r.
Qed.

(** X5. The identifier of a record [parse_filename] returns is never
    empty and holds no comma: it is the text before the first comma,
    which the first pattern wants non-empty, or it is made from two
    floats and the "_" between them. *)
Theorem identifier_is_well_formed (filename : string) (i : info) :
  parse_filename filename = ret (Some i) ->
  id i <> "" /\ contains "," (id i) = false.
Proof.
  intros Hp. split; [|now apply (parse_filename_some filename)].
  apply parse_origin in Hp
    as [(ident & la & lo & rest & x & y & (_ & Hne & _) & _ & _ & ->)
       |(la & lo & tail & x & y & _ & _ & _ & ->)]; cbn [id].
  - exact Hne.
  - intros E.
    assert (contains "_"
              (replace "-" "n" (replace "." "" (repr x ++ "_" ++ repr y)))
            = true) as Hu.
    { apply replace_keeps; [discriminate|].
      apply replace_keeps; [discriminate|].
      rewrite contains_app. cbn [String.append contains].
      rewrite Ascii.eqb_refl. cbn. apply orb_true_r. }
    rewrite E in Hu. discriminate.
Qed.

Lemma identifier_is_well_formed_witness :
  id twin_info <> "" /\ contains "," (id twin_info) = false.
Proof.
  apply (identifier_is_well_formed "abc123,37.788169,-122.400728,.jpg").
  vm_compute. reflexivity.
Defined.

(** * More about the generated name *)

Lemma contains_drop c (k : nat) (s : string) :
  contains c s = false -> contains c (str_drop k s) = false.
Proof. rewrite !contains_false_all. apply all_drop. Qed.

(** the extension [splitext] returns is a suffix of the path *)
Lemma splitext_suffix (p : string) :
  exists k, snd (splitext p) = str_drop k p.
Proof.
  assert (str_drop (String.length p) p = "") as Hend.
  { pose proof (drop_app p "") as E. now rewrite app_nil_r in E. }
  unfold splitext.
  destruct (rfind "/" p <? rfind "." p).
  - destruct (skip_dots_cases
                (Z.to_nat (rfind "." p - (rfind "/" p + 1))) p
                (rfind "/" p + 1) (rfind "." p)) as [-> | ->]; simpl.
    + now exists (String.length p).
    + now eexists.
  - exists (String.length p). now simpl.
Qed.

(** a character that no float is written with, other than "_", and that
    the file name does not hold is neither in the identifier nor in the
    extension of its record *)
Lemma parse_keeps_out (c : ascii) (filename : string) (i : info) :
  float_char c = false -> c <> "_"%char ->
  contains c filename = false ->
  parse_filename filename = ret (Some i) ->
  contains c (id i) = false /\ contains c (ext i) = false.
Proof.
  intros Hf Hu Hc Hp.
  destruct (splitext_prefix filename) as [k Hk].
  destruct (splitext_suffix filename) as [k' Hk'].
  assert (contains c (fst (splitext filename)) = false) as Hb
    by (rewrite Hk; now apply contains_take).
  assert (contains c (snd (splitext filename)) = false) as He
    by (rewrite Hk'; now apply contains_drop).
  apply parse_origin in Hp
    as [(ident & la & lo & rest & x & y & (E & _) & _ & _ & ->)
       |(la & lo & tail & x & y & _ & _ & _ & ->)]; cbn [id ext];
    (split; [|exact He]).
  - rewrite E, contains_app in Hb. now apply orb_false_iff in Hb as [-> _].
  - assert (forall s, all float_char s = true -> contains c s = false) as Hfc
      by (intros s; now apply all_not_contains).
    apply replace_keeps_out; [now apply Hfc|].
    apply replace_keeps_out; [reflexivity|].
    rewrite contains_app. cbn [String.append contains].
    rewrite !Hfc by apply repr_chars.
    destruct (Ascii.eqb_spec "_" c) as [<-|]; [contradiction | reflexivity].
Qed.

(** X6. The generated name of a directory entry holds no "/": the
    destination of a rename is a single name in the directory of the
    source. *)
Theorem generated_name_is_one_part (n : string) (i : info) (ok : bool) :
  contains "/" n = false ->
  parse_filename n = ret (Some i) ->
  contains "/" (generate_new_filename i ok) = false.
Proof.
  intros Hn Hp.
  destruct (parse_keeps_out "/" n i eq_refl ltac:(discriminate) Hn Hp)
    as [Hid Hext].
  unfold generate_new_filename.
  repeat (rewrite contains_app || cbn [String.append contains]).
  rewrite Hid, Hext.
  rewrite (all_not_contains float_char "/" _ eq_refl
             (format_f6_chars (lat i))).
  rewrite (all_not_contains float_char "/" _ eq_refl
             (format_f6_chars (lon i))).
  now destruct (is_query i), ok.
Qed.

Lemma generated_name_is_one_part_witness :
  contains "/" (generate_new_filename twin_info true) = false.
Proof.
  apply (generated_name_is_one_part "abc123,37.788169,-122.400728,.jpg").
  - reflexivity.
  - vm_compute. reflexivity.
Defined.

Section Destination.
Context {FS : Type} `{FileSystem FS}.

(** X7. The destination of a parsed entry is never the entry itself:
    the generated name is not a name [parse_filename] recognises.  So
    the collision test of the loop is the existence test alone; its
    comparison of the two paths never decides. *)
Theorem destination_is_another_path (fs : FS) (d : path) (n : string)
    (i : info) (default_status : string) :
  parse_filename n = ret (Some i) ->
  destination (joinpath d n) i default_status <> joinpath d n
  /\ collides fs (joinpath d n)
       (destination (joinpath d n) i default_status)
     = fs_exists fs (destination (joinpath d n) i default_status).
Proof.
  intros Hp.
  assert (destination (joinpath d n) i default_status <> joinpath d n)
    as Hne.
  { intros E. apply (f_equal name) in E.
    unfold destination in E. rewrite !name_joinpath in E.
    pose proof (reparse_generated n i
                  (String.eqb default_status "success") Hp) as Hg.
    rewrite E, Hp in Hg. discriminate. }
  split; [exact Hne|].
  unfold collides. rewrite (bool_decide_eq_true_2 _ Hne).
  destruct (fs_exists fs _) as [e|found]; [reflexivity|].
  cbn [bind ret]. now rewrite andb_true_r.
Qed.

End Destination.

Lemma destination_is_another_path_witness :
  destination (joinpath ["demo-img"] "abc123,37.788169,-122.400728,a.jpg")
    twin_info "success"
  <> joinpath ["demo-img"] "abc123,37.788169,-122.400728,a.jpg"
  /\ collides twins
       (joinpath ["demo-img"] "abc123,37.788169,-122.400728,a.jpg")
       (destination
          (joinpath ["demo-img"] "abc123,37.788169,-122.400728,a.jpg")
          twin_info "success")
     = fs_exists twins
         (destination
            (joinpath ["demo-img"] "abc123,37.788169,-122.400728,a.jpg")
            twin_info "success").
Proof.
  apply (destination_is_another_path (FS := MemFS.t) twins ["demo-img"]
           "abc123,37.788169,-122.400728,a.jpg" twin_info "success").
  vm_compute. reflexivity.
Defined.

(** ** The suffix of a renamed file *)

(** the loop of [splitext] over the characters [rest] that stand between
    the last separator and the last dot: it gives up when all of them
    are dots, and splits at the dot otherwise *)
Lemma skip_dots_scan (front rest tail : string) (d : Z) :
  skip_dots (String.length rest) (front ++ rest ++ tail) (len front) d
  = if all (fun c => Ascii.eqb c ".") rest
    then (front ++ rest ++ tail, "")
    else (slice_to (front ++ rest ++ tail) d,
          slice_from (front ++ rest ++ tail) d).
Proof.
  revert front. induction rest as [|c rest IH]; intros front.
  - reflexivity.
  - cbn [String.length skip_dots all].
    assert (slice1 (front ++ String c rest ++ tail) (len front)
            = String c "") as ->.
    { unfold slice1, slice_from, len. rewrite Nat2Z.id.
      change (String c rest ++ tail) with (String c (rest ++ tail)).
      now rewrite drop_app. }
    cbn [String.eqb].
    destruct (Ascii.eqb c ".") eqn:Ec; cbn [negb andb]; [|reflexivity].
    specialize (IH (front ++ String c "")).
    replace ((front ++ String c "") ++ rest ++ tail)
      with (front ++ String c rest ++ tail) in IH
      by (now rewrite app_assoc).
    replace (len (front ++ String c "")) with (len front + 1) in IH
      by (unfold len; rewrite length_app; simpl; lia).
    exact IH.
Qed.

(** a name with the suffix of an image is a non-empty text, a dot and
    letters *)
Lemma image_suffix_shape (d : path) (n : string) :
  bool_decide (suffix (joinpath d n) ∈ image_extensions) = true ->
  exists pre e,
    n = pre ++ String "." e /\ pre <> "" /\ e <> ""
    /\ contains "." e = false /\ contains "," e = false
    /\ suffix (joinpath d n) = String "." e.
Proof.
  unfold suffix. rewrite name_joinpath.
  destruct ((0 <? rfind "." n) && (rfind "." n <? len n - 1)) eqn:Hc;
    [|intros Hin; vm_compute in Hin; discriminate].
  apply andb_true_iff in Hc as [Hpos _]. apply Z.ltb_lt in Hpos.
  destruct (rfind_drop "." n) as (r & Hr & Hnodot); [lia|].
  intros Hin.
  exists (str_take (Z.to_nat (rfind "." n)) n), r.
  assert (n = str_take (Z.to_nat (rfind "." n)) n ++ String "." r) as Hn
    by (rewrite <- Hr; symmetry; apply take_drop).
  split; [exact Hn|]. split.
  { intros E. rewrite E in Hn. cbn [String.append] in Hn.
    rewrite Hn in Hpos. cbn [rfind] in Hpos.
    apply rfind_none in Hnodot. rewrite Hnodot in Hpos. cbn in Hpos. lia. }
  unfold slice_from in *. rewrite Hr in *.
  apply bool_decide_eq_true in Hin. unfold image_extensions in Hin.
  set_unfold in Hin.
  destruct_or! Hin; injection Hin as ->;
    (split; [discriminate|]); repeat split; reflexivity.
Qed.

(** X8. Renaming keeps the suffix: for a directory entry that is an
    image by its suffix and whose name is parsed, the generated name has
    the same suffix, so the renamed file is still an image file for the
    script. *)
Theorem rename_keeps_suffix (d : path) (n : string) (i : info) (ok : bool) :
  contains "/" n = false ->
  bool_decide (suffix (joinpath d n) ∈ image_extensions) = true ->
  parse_filename n = ret (Some i) ->
  suffix (joinpath d (generate_new_filename i ok)) = suffix (joinpath d n).
Proof.
  intros Hslash Himg Hp.
  destruct (image_suffix_shape d n Himg)
    as (pre & e & Hn & Hpre & He & Hdot & Hcomma & ->).
  assert (contains "/" pre = false /\ contains "/" e = false) as [Hs1 Hs2].
  { rewrite Hn, contains_app in Hslash. cbn [contains] in Hslash.
    apply orb_false_iff in Hslash as [-> Hx]. split; [reflexivity|].
    now apply orb_false_iff in Hx as [_ ->]. }
  assert (splitext n
          = if all (fun c => Ascii.eqb c ".") pre
            then (n, "") else (pre, String "." e)) as Hsplit.
  { unfold splitext.
    assert (rfind "/" n = -1) as -> by now apply rfind_none.
    assert (rfind "." n = len pre) as ->.
    { rewrite Hn, rfind_app. cbn [rfind].
      apply rfind_none in Hdot. rewrite Hdot. cbn. lia. }
    replace (-1 <? len pre) with true
      by (symmetry; apply Z.ltb_lt; unfold len; lia).
    replace (Z.to_nat (len pre - (-1 + 1))) with (String.length pre)
      by (unfold len; lia).
    pose proof (skip_dots_scan "" pre (String "." e) (len pre)) as Hscan.
    cbn [String.append] in Hscan. change (len "") with 0 in Hscan.
    rewrite <- Hn in Hscan. change (-1 + 1) with 0. rewrite Hscan.
    destruct (all _ pre); [reflexivity|].
    unfold slice_to, slice_from, len. rewrite Nat2Z.id, Hn.
    now rewrite take_app, drop_app. }
  assert (ext i = String "." e) as Hext.
  { destruct (parse_filename_some n i Hp) as [_ ->].
    destruct (all (fun c => Ascii.eqb c ".") pre) eqn:Hall;
      [|now rewrite Hsplit].
    exfalso. revert Hp. unfold parse_filename. rewrite Hsplit. cbn [fst snd].
    assert (contains "," n = false) as Hnc.
    { rewrite Hn, contains_app. cbn [contains]. rewrite Hcomma.
      now rewrite (all_not_contains _ "," pre eq_refl Hall). }
    rewrite (parse_pattern1_none _ _ (match1_needs_comma _ Hnc)).
    cbn [or_else ret].
    destruct pre as [|c pre']; [contradiction|].
    cbn [all] in Hall. apply andb_true_iff in Hall as [Hc _].
    apply Ascii.eqb_eq in Hc as ->.
    rewrite Hn. cbn [String.append].
    rewrite (parse_pattern2_none _ _ (match2_needs_s "." _ ltac:(discriminate))).
    discriminate. }
  destruct (generate_parts i ok) as (front & c & -> & _ & _ & _).
  rewrite Hext. unfold suffix. rewrite name_joinpath.
  set (body := String "_" front ++ String c "").
  assert (rfind "." (body ++ String "." e) = len body) as ->.
  { rewrite rfind_app. cbn [rfind].
    apply rfind_none in Hdot. rewrite Hdot. cbn. lia. }
  assert (0 < len body) as Hb by (unfold len, body; simpl; lia).
  assert (len (body ++ String "." e) = len body + 1 + len e) as Hl
    by (unfold len; rewrite length_app; simpl; lia).
  assert (0 < len e) as Hle by (unfold len; destruct e; [contradiction | simpl; lia]).
  replace ((0 <? len body) && (len body <? len (body ++ String "." e) - 1))
    with true
    by (symmetry; apply andb_true_iff; split;
        [apply Z.ltb_lt | apply Z.ltb_lt]; lia).
  unfold slice_from, len. rewrite Nat2Z.id. apply drop_app.
Qed.

Lemma rename_keeps_suffix_witness :
  suffix (joinpath ["demo-img"] (generate_new_filename twin_info true))
  = suffix (joinpath ["demo-img"] "abc123,37.788169,-122.400728,.jpg").
Proof.
  apply (rename_keeps_suffix ["demo-img"]
           "abc123,37.788169,-122.400728,.jpg" twin_info true).
  - reflexivity.
  - vm_compute. reflexivity.
  - vm_compute. reflexivity.
Defined.

(** with a "/" in the name the suffix can be lost: [splitext] takes the
    text after the separator, which is the extension alone, for a hidden
    file without an extension *)
Example suffix_lost_after_separator :
  parse_filename "a,1,2,/.jpg"
  = ret (Some (Info "a" (S754_finite false 4503599627370496 (-52))
                 (S754_finite false 4503599627370496 (-51)) true ""))
  /\ suffix ["d"; "a,1,2,/.jpg"] = ".jpg"
  /\ suffix ["d"; generate_new_filename
                    (Info "a" (S754_finite false 4503599627370496 (-52))
                       (S754_finite false 4503599627370496 (-51)) true "")
                    true]
     = ".000000@success".
Proof. repeat split; vm_compute; reflexivity. Qed.

(** * More about the tree walk *)

Section TreeExtras.
Context {FS : Type} `{FileSystem FS}.

Lemma step_preview_counts (folder : path) (default_status : string)
    (rel : path) (n : string) (st st' : state FS) :
  step folder true default_status rel n st st' ->
  let p := joinpath (folder ++ rel)%list n in
  total_files (st_count st')
  = (total_files (st_count st)
     + if is_image (st_fs st) p then 1 else 0)%nat
  /\ skipped_files (st_count st')
     = (skipped_files (st_count st)
        + if is_image (st_fs st) p
             && negb (would_rename (st_fs st) default_status p)
          then 1 else 0)%nat.
Proof.
  intros Hs. cbv zeta. unfold would_rename, is_image. rewrite name_joinpath.
  inversion Hs; subst;
    repeat (match goal with
            | x := _ |- _ => subst x
            | E : eligible _ _ = _ |- _ => rewrite E
            | E : parse_filename _ = _ |- _ => rewrite E
            | E : collides _ _ _ = _ |- _ => rewrite E
            end; cbn [ret andb negb]);
    cbn; try lia; discriminate.
Qed.

Lemma scan_preview_counts (folder : path) (default_status : string)
    (entries : list (path * string)) (st st' : state FS) :
  scan folder true default_status entries st = (st', ret tt) ->
  total_files (st_count st')
  = (total_files (st_count st)
     + length (List.filter (is_image (st_fs st))
                 (map (entry_path folder) entries)))%nat
  /\ skipped_files (st_count st')
     = (skipped_files (st_count st)
        + length (List.filter
                    (fun p => is_image (st_fs st) p
                              && negb (would_rename (st_fs st)
                                         default_status p))
                    (map (entry_path folder) entries)))%nat.
Proof.
  revert st. induction entries as [|e entries IH]; intros st.
  - cbn [scan]. unfold act_ret. intros [= <-]. cbn. split; lia.
  - cbn [scan]. unfold act_bind.
    destruct (loop_body_cases folder true default_status e st)
      as [(st1 & -> & Hs)|(st1 & err & -> & Ha)]; [|discriminate].
    intros Hscan. destruct (IH _ Hscan) as [Ht Hk].
    pose proof (step_dry_fs _ _ _ _ _ _ _ eq_refl Hs) as Hfs1.
    destruct (step_preview_counts _ _ _ _ _ _ Hs) as [Ht1 Hk1].
    rewrite Ht, Hk, Hfs1, Ht1, Hk1.
    cbn [map List.filter]. destruct e as [rel n]. cbn [fst snd] in *.
    change (entry_path folder (rel, n))
      with (joinpath (folder ++ rel)%list n).
    destruct (is_image (st_fs st) (joinpath (folder ++ rel)%list n));
      destruct (would_rename (st_fs st) default_status
                  (joinpath (folder ++ rel)%list n));
      cbn [andb negb length]; split; lia.
Qed.

(** X9. When a run in preview mode over an existing folder returns,
    the total is the number of listed entries that are image files,
    and skipped is the number of those that are not parsed or whose
    destination exists. *)
Theorem preview_counters (folder : path) (default_status : string)
    (fs : FS) (out : list line) (st : state FS) :
  rename_images_in_folder folder true default_status fs out
    = (st, ret tt) ->
  fs_exists fs folder = ret true ->
  total_files (st_count st)
  = length (List.filter (is_image fs)
              (map (entry_path folder) (fst (fs_rglob fs folder))))
  /\ skipped_files (st_count st)
     = length (List.filter
                 (fun p => is_image fs p
                           && negb (would_rename fs default_status p))
                 (map (entry_path folder) (fst (fs_rglob fs folder)))).
Proof.
  intros Hrun Hex. rewrite rename_images_in_folder_eq, Hex in Hrun.
  destruct (scan folder true default_status _ _) as [st1 [err|[]]] eqn:Hscan;
    [discriminate|].
  destruct (snd (fs_rglob fs folder)); [discriminate|].
  injection Hrun as <-.
  apply scan_preview_counts in Hscan as [Ht Hk].
  split; [exact Ht | exact Hk].
Qed.

Lemma print_reported (l : list line) (st : state FS) (out : list line) :
  List.filter is_skip_line l = [] -> List.filter is_done_line l = [] ->
  reported st out -> reported (print l st) out.
Proof.
  unfold reported. cbn [print st_out st_count].
  intros E1 E2. rewrite !List.filter_app, E1, E2, !List.app_nil_r. auto.
Qed.

Lemma step_reported folder dry_run default_status rel n
    (st st' : state FS) (out : list line) :
  step folder dry_run default_status rel n st st' ->
  reported st out -> reported st' out.
Proof.
  unfold reported. intros Hs [H1 H2].
  inversion Hs; subst; unfold describe;
    cbn [st_out st_count print count_skipped count_renamed count_total
         set_fs skipped_files renamed_files];
    rewrite ?List.filter_app, ?List.length_app;
    cbn [List.filter is_skip_line is_done_line length app];
    split; lia.
Qed.

Lemma abort_reported folder default_status rel n
    (st st' : state FS) (err : exn) (out : list line) :
  abort folder default_status rel n st st' err ->
  reported st out -> reported st' out.
Proof.
  intros Ha Hr. inversion Ha; subst; exact Hr.
Qed.

(** X10. Every count has its line: in the output a run leaves,
    whether it returned or raised, the number of lines that report a
    skip (not parsed, destination exists, rename failed) has grown by
    the skipped counter, and the number of lines that report a rename
    or a preview by the renamed counter.  No file is skipped
    silently. *)
Theorem every_count_has_its_line (folder : path) (dry_run : bool)
    (default_status : string) (fs : FS) (out : list line)
    (st : state FS) (r : result unit) :
  rename_images_in_folder folder dry_run default_status fs out = (st, r) ->
  length (List.filter is_skip_line (st_out st))
  = (length (List.filter is_skip_line out)
     + skipped_files (st_count st))%nat
  /\ length (List.filter is_done_line (st_out st))
     = (length (List.filter is_done_line out)
        + renamed_files (st_count st))%nat.
Proof.
  assert (reported (State fs out (Stats 0 0 0)) out) as H0.
  { unfold reported. cbn. lia. }
  rewrite rename_images_in_folder_eq.
  destruct (fs_exists fs folder) as [err|[]].
  - intros [= <- <-]. exact H0.
  - destruct (scan folder dry_run default_status _ _) as [st1 r1] eqn:Hscan.
    apply (scan_always folder dry_run default_status
             (fun st => reported st out)) in Hscan.
    + destruct r1 as [err|[]]; [intros [= <- <-]; exact Hscan|].
      destruct (snd (fs_rglob fs folder));
        intros [= <- <-]; [exact Hscan|].
      apply (print_reported (summary dry_run (st_count st1)) st1 out);
        try assumption; unfold summary;
        now destruct (dry_run && _).
    + intros rel n s s' Hs. exact (step_reported _ _ _ _ _ _ _ out Hs).
    + intros rel n s s' err Ha. exact (abort_reported _ _ _ _ _ _ _ out Ha).
    + now apply print_reported.
  - intros [= <- <-]. now apply print_reported.
Qed.

Lemma step_unrenamed folder dry_run default_status rel n
    (st st' : state FS) (fs : FS) :
  step folder dry_run default_status rel n st st' ->
  (renamed_files (st_count st) = 0%nat -> st_fs st = fs) ->
  renamed_files (st_count st') = 0%nat -> st_fs st' = fs.
Proof.
  intros Hs Hi. inversion Hs; subst; cbn; try assumption; lia.
Qed.

Lemma abort_unrenamed folder default_status rel n
    (st st' : state FS) (err : exn) (fs : FS) :
  abort folder default_status rel n st st' err ->
  (renamed_files (st_count st) = 0%nat -> st_fs st = fs) ->
  renamed_files (st_count st') = 0%nat -> st_fs st' = fs.
Proof.
  intros Ha Hi. inversion Ha; subst; cbn; assumption.
Qed.

(** X11. A run that leaves the renamed counter at zero, whether it
    returned or raised, has left the file system as it found it: the
    file system changes only where a rename returned, and each of
    those is counted. *)
Theorem nothing_renamed_nothing_changed (folder : path) (dry_run : bool)
    (default_status : string) (fs : FS) (out : list line)
    (st : state FS) (r : result unit) :
  rename_images_in_folder folder dry_run default_status fs out = (st, r) ->
  renamed_files (st_count st) = 0%nat ->
  st_fs st = fs.
Proof.
  rewrite rename_images_in_folder_eq.
  destruct (fs_exists fs folder) as [err|[]]; try now intros [= <- <-].
  destruct (scan folder dry_run default_status _ _) as [st1 r1] eqn:Hscan.
  assert (renamed_files (st_count st1) = 0%nat -> st_fs st1 = fs) as Hinv.
  { refine (scan_always folder dry_run default_status
              (fun st => renamed_files (st_count st) = 0%nat
                         -> st_fs st = fs) _ _ _ _ _ _ _ Hscan).
    - intros rel n s s' Hs. exact (step_unrenamed _ _ _ _ _ _ _ fs Hs).
    - intros rel n s s' err Ha. exact (abort_unrenamed _ _ _ _ _ _ _ fs Ha).
    - intros _. reflexivity. }
  destruct r1 as [err|[]]; [intros [= <- <-]; exact Hinv|].
  destruct (snd (fs_rglob fs folder)); intros [= <- <-]; exact Hinv.
Qed.

(** preview mode leaves the file system as it found it *)
Lemma preview_keeps_fs (folder : path) (default_status : string)
    (fs : FS) (out : list line) :
  st_fs (fst (rename_images_in_folder folder true default_status fs out))
  = fs.
Proof.
  rewrite rename_images_in_folder_eq.
  destruct (fs_exists fs folder) as [err|[]]; try reflexivity.
  destruct (scan folder true default_status _ _) as [st1 r1] eqn:Hscan.
  apply scan_preview in Hscan as [Hfs _].
  destruct r1 as [err|[]]; [exact Hfs|].
  destruct (snd (fs_rglob fs folder)); exact Hfs.
Qed.

(** X12. Run as a program, the script renames nothing unless its
    first argument is exactly "run": with no argument or any other
    one the file system it leaves is the one it was given, whether it
    returns or raises. *)
Theorem main_previews_by_default (argv : list string) (fs : FS) :
  nth_error argv 1 <> Some "run" ->
  fst (fst (main argv fs)) = fs.
Proof.
  intros Harg. unfold main.
  assert ((1 <? length argv)%nat && String.eqb (nth 1 argv "") "run"
          = false) as ->.
  { destruct argv as [|a [|b argv]]; try reflexivity.
    cbn [length nth nth_error] in *.
    destruct (String.eqb_spec b "run") as [->|]; [now destruct Harg|].
    apply andb_false_r. }
  pose proof (preview_keeps_fs ["demo-img"] "success" fs []) as Hfs.
  destruct (rename_images_in_folder ["demo-img"] true "success" fs [])
    as [st r].
  exact Hfs.
Qed.

End TreeExtras.

Lemma preview_counters_witness :
  total_files (st_count twins_previewed)
  = length (List.filter (is_image twins)
              (map (entry_path ["demo-img"])
                 (fst (fs_rglob twins ["demo-img"]))))
  /\ skipped_files (st_count twins_previewed)
     = length (List.filter
                 (fun p => is_image twins p
                           && negb (would_rename twins "success" p))
                 (map (entry_path ["demo-img"])
                    (fst (fs_rglob twins ["demo-img"])))).
Proof.
  apply (preview_counters (FS := MemFS.t) ["demo-img"] "success" twins []
           twins_previewed);
    vm_compute; reflexivity.
Defined.

Lemma every_count_has_its_line_witness :
  length (List.filter is_skip_line (st_out twins_locked_final))
  = (length (List.filter is_skip_line [])
     + skipped_files (st_count twins_locked_final))%nat
  /\ length (List.filter is_done_line (st_out twins_locked_final))
     = (length (List.filter is_done_line [])
        + renamed_files (st_count twins_locked_final))%nat.
Proof.
  apply (every_count_has_its_line (FS := MemFS.t) ["demo-img"] false
           "success" twins_locked [] twins_locked_final (ret tt)).
  vm_compute. reflexivity.
Defined.

Lemma nothing_renamed_nothing_changed_witness :
  st_fs twins_locked_final = twins_locked.
Proof.
  apply (nothing_renamed_nothing_changed (FS := MemFS.t) ["demo-img"] false
           "success" twins_locked [] twins_locked_final (ret tt));
    vm_compute; reflexivity.
Defined.

Lemma main_previews_by_default_witness :
  fst (fst (main ["rename_htmlimg.py"; "Run"] twins)) = twins.
Proof.
  apply (main_previews_by_default (FS := MemFS.t)
           ["rename_htmlimg.py"; "Run"] twins).
  discriminate.
Defined.

(** with "run" the first file of [twins] is renamed: its new name
    exists afterwards and its old name does not *)
Example main_run :
  (snd (main ["rename_htmlimg.py"; "run"] twins),
   fs_exists (fst (fst (main ["rename_htmlimg.py"; "run"] twins)))
     ["demo-img"; "_abc123_query@37.788169@-122.400728@success.jpg"],
   fs_exists (fst (fst (main ["rename_htmlimg.py"; "run"] twins)))
     ["demo-img"; "abc123,37.788169,-122.400728,b.jpg"])
  = (ret tt, ret true, ret false).
Proof. vm_compute. reflexivity. Qed.

Section Lasting.
Context {FS : Type} `{FileSystemLaws FS}.

(** X13. What was renamed is found under its new name: in execute
    mode, once the rename of an entry returned, its destination
    exists in the state the loop leaves, whatever the entries after it
    are and whether the loop returns or raises.  A generated name is
    never the source of a later rename. *)
Theorem renamed_file_is_found (folder : path) (default_status : string)
    (st0 st1 st2 : state FS) (rel : path) (n : string) (i : info)
    (fs1 : FS) (rest : list (path * string)) (r : result unit) :
  let file_path := joinpath (folder ++ rel)%list n in
  eligible (st_fs st0) file_path = ret true ->
  parse_filename n = ret (Some i) ->
  collides (st_fs st0) file_path (destination file_path i default_status)
    = ret false ->
  fs_rename (st_fs st0) file_path (destination file_path i default_status)
    = inr fs1 ->
  loop_body folder false default_status file_path st0 = (st1, ret tt) ->
  scan folder false default_status rest st1 = (st2, r) ->
  fs_exists (st_fs st2) (destination file_path i default_status) = ret true.
Proof.
  intros file_path El Hp Hc Hr Hl Hscan.
  set (d := destination file_path i default_status) in *.
  assert (parse_filename (name d) = ret None) as Hd.
  { unfold d, destination. rewrite name_joinpath.
    exact (reparse_generated n i _ Hp). }
  pose proof (loop_body_renamed folder default_status st0 st1 rel n i fs1
                El Hp Hc Hr Hl) as ->.
  apply (scan_always folder false default_status
           (fun st => fs_exists (st_fs st) d = ret true)) in Hscan;
    [exact Hscan | | |].
  - intros rel' n' st st' Hstep.
    exact (step_keeps_unparsed folder default_status d rel' n' st st'
             Hd Hstep).
  - intros rel' n' st st' err Ha.
    exact (abort_keeps folder default_status d rel' n' st st' err Ha).
  - cbn. apply eligible_is_file in El.
    exact (rename_creates _ _ _ _ El Hr).
Qed.

(** X14. A path whose name the parser does not recognise and that
    exists when a run in execute mode starts exists in the file system
    the run leaves, whether it returns or raises: the run never renames
    it away. *)
Theorem unrecognised_path_stays (folder : path) (default_status : string)
    (fs : FS) (out : list line) (st : state FS) (r : result unit)
    (q : path) :
  parse_filename (name q) = ret None ->
  fs_exists fs q = ret true ->
  rename_images_in_folder folder false default_status fs out = (st, r) ->
  fs_exists (st_fs st) q = ret true.
Proof.
  intros Hq Hex. rewrite rename_images_in_folder_eq.
  destruct (fs_exists fs folder) as [err|[]]; try now intros [= <- <-].
  destruct (scan folder false default_status _ _) as [st1 r1] eqn:Hscan.
  apply (scan_always folder false default_status
           (fun st => fs_exists (st_fs st) q = ret true)) in Hscan.
  - destruct r1 as [err|[]]; [intros [= <- <-]; exact Hscan|].
    destruct (snd (fs_rglob fs folder)); intros [= <- <-]; exact Hscan.
  - intros rel n s s' Hstep.
    exact (step_keeps_unparsed folder default_status q rel n s s'
             Hq Hstep).
  - intros rel n s s' err Ha.
    exact (abort_keeps folder default_status q rel n s s' err Ha).
  - exact Hex.
Qed.

End Lasting.

Lemma renamed_file_is_found_witness :
  fs_exists (st_fs twins_after_both)
    (destination
       (joinpath (["demo-img"] ++ [])%list
          "abc123,37.788169,-122.400728,b.jpg") twin_info "success")
  = ret true.
Proof.
  apply (renamed_file_is_found (FS := MemFS.t) ["demo-img"] "success"
           (State twins [] (Stats 0 0 0)) twins_after_first twins_after_both
           [] "abc123,37.788169,-122.400728,b.jpg" twin_info
           (st_fs twins_after_first)
           [([], "abc123,37.788169,-122.400728,a.jpg")] (ret tt));
    vm_compute; reflexivity.
Defined.

Lemma unrecognised_path_stays_witness :
  fs_exists (st_fs twins_final) ["demo-img"] = ret true.
Proof.
  apply (unrecognised_path_stays (FS := MemFS.t) ["demo-img"] "success"
           twins [] twins_final (ret tt) ["demo-img"]);
    vm_compute; reflexivity.
Defined.
